(** * cassetta.io.modules: the loadable-module protocol

    A shallow embedding of [cassetta/io/modules.py]: argument capture
    ([LoadableMixin.save_args]), the recursive serializer and deserializer
    ([_nested_serialize], [_nested_unserialize]), the [serialize] overrides
    of the container and optimizer variants, [save]/[load], and the
    conformance checks of the containers.

    Python objects are modelled as trees ([value]); classes are trees of
    their bases ([pyclass]) with the C3 linearisation computed as Python does,
    so that [isinstance], method resolution and [super()] follow the real
    rules.  Code that lives outside the file (torch, the import system,
    user initialisers) is a [Runtime] of oracles.  A second, store-based
    model ([Module Store]) is used where aliasing matters. *)

From Stdlib Require Import ZArith Ascii.
From stdpp Require Import base option list strings pretty.

Set Warnings "-register-all".
#[local] Open Scope string_scope.

(* ================================================================== *)
(** * 1. Data model                                                     *)
(* ================================================================== *)

(** Leaves of an argument graph: Python primitives, tensors (an
    [nn.Parameter] is a [torch.Tensor]) and any other object that is
    neither a list, a tuple, a dict nor an instance of a modelled class
    (a generator, a numpy array, ...).  Handles stand for object identity. *)
Inductive leaf : Type :=
| LNone
| LBool (b : bool)
| LInt (n : Z)
| LStr (s : string)
| LTensor (is_parameter : bool) (handle : nat)
| LOpaque (tyname : string) (handle : nat).

(** The [serialize] methods defined in the file, by defining class. *)
Inductive ser_impl : Type :=
| SerLoadableMixin
| SerSequential
| SerModuleList
| SerModuleDict
| SerOptimizer.

(** The [__init__] methods a class body can define.  The first four are
    the ones written in the file; [InitExternal] is an initialiser of
    torch or of user code: [wrapped] tells whether it is decorated with
    [@LoadableMixin.save_args], [nparams] is the number of parameters of
    its signature besides [self], and [id] selects its behaviour in the
    [Runtime]. *)
Inductive init_impl : Type :=
| InitSaveArgsSuper
| InitSequential
| InitModuleList
| InitModuleDict
| InitExternal (wrapped : bool) (nparams : nat) (id : nat).

(** A class: [__module__], [__name__], [__qualname__], [__bases__] and the
    two methods of its own body that the protocol dispatches on. *)
Inductive pyclass : Type := Class {
  k_module : string;
  k_name : string;
  k_qualname : string;
  k_bases : list pyclass;
  k_serialize : option ser_impl;
  k_init : option init_impl
}.

(** Python values.  A dict is an association list: insertion order is
    observable and all dicts of the protocol are keyed by strings.
    [VObj cls args kwargs state modules] is a live instance of [cls]:
    [args]/[kwargs] are the [_args]/[_kwargs] attributes ([None] when the
    attribute does not exist), [state] is what [state_dict()] returns and
    [modules] is torch's ordered [_modules] table of children. *)
Inductive value : Type :=
| VLeaf (x : leaf)
| VList (xs : list value)
| VTuple (xs : list value)
| VDict (kvs : list (string * value))
| VObj (cls : pyclass) (args kwargs : option value) (state : value)
       (modules : list (string * value)).

#[global] Instance leaf_eq_dec : EqDecision leaf.
Proof. solve_decision. Defined.
#[global] Instance ser_impl_eq_dec : EqDecision ser_impl.
Proof. solve_decision. Defined.
#[global] Instance init_impl_eq_dec : EqDecision init_impl.
Proof. solve_decision. Defined.

(** ** Induction principles for the nested types *)

Section klass_induction.
Variable P : pyclass → Prop.
Hypothesis HClass : ∀ m n q bs s i, Forall P bs → P (Class m n q bs s i).

Fixpoint klass_ind' (k : pyclass) : P k :=
  match k with
  | Class m n q bs s i =>
      HClass m n q bs s i
        ((fix go (l : list pyclass) : Forall P l :=
            match l with
            | [] => @List.Forall_nil _ P
            | b :: r => @List.Forall_cons _ P b r (klass_ind' b) (go r)
            end) bs)
  end.
End klass_induction.

Section value_induction.
Variable P : value → Prop.
Hypothesis HLeaf : ∀ x, P (VLeaf x).
Hypothesis HList : ∀ xs, Forall P xs → P (VList xs).
Hypothesis HTuple : ∀ xs, Forall P xs → P (VTuple xs).
Hypothesis HDict : ∀ kvs, Forall (λ kv, P kv.2) kvs → P (VDict kvs).
Hypothesis HObj : ∀ c a k st ms,
  (∀ x, a = Some x → P x) → (∀ x, k = Some x → P x) → P st →
  Forall (λ kv, P kv.2) ms → P (VObj c a k st ms).

Fixpoint value_ind' (v : value) : P v :=
  let all := fix all (l : list value) : Forall P l :=
    match l with
    | [] => @List.Forall_nil _ P
    | x :: r => @List.Forall_cons _ P x r (value_ind' x) (all r)
    end in
  let alls := fix alls (l : list (string * value))
      : Forall (λ kv, P kv.2) l :=
    match l with
    | [] => @List.Forall_nil _ _
    | (k, x) :: r =>
        @List.Forall_cons _ (λ kv, P kv.2) (k, x) r (value_ind' x) (alls r)
    end in
  let opt := λ (o : option value),
    match o return ∀ x, o = Some x → P x with
    | Some y => λ x (E : Some y = Some x),
        eq_ind y P (value_ind' y) x (Some_inj y x E)
    | None => λ x (E : None = Some x),
        False_ind (P x)
          (eq_ind None (λ o, match o with Some _ => False | None => True end)
             I _ E)
    end in
  match v with
  | VLeaf x => HLeaf x
  | VList xs => HList xs (all xs)
  | VTuple xs => HTuple xs (all xs)
  | VDict kvs => HDict kvs (alls kvs)
  | VObj c a k st ms =>
      HObj c a k st ms (opt a) (opt k) (value_ind' st) (alls ms)
  end.
End value_induction.

(** ** Exceptions and results *)

(** The exceptions the file raises itself, [KeyError], [AttributeError]
    and [RecursionError] raised by the interpreter on its behalf, and
    [External]: anything raised by torch or by user code. *)
Inductive exn : Type :=
| TypeError (msg : string)
| ImportError (msg : string) (qualname : value) (frm : string) (module : value)
| KeyError (key : string)
| AttributeError (msg : string)
| RecursionError
| External (msg : string).

Inductive result (A : Type) : Type :=
| Ok (a : A)
| Raise (e : exn).
Arguments Ok {A} a.
Arguments Raise {A} e.

#[global] Instance result_ret : MRet result := λ A a, Ok a.
#[global] Instance result_bind : MBind result := λ A B f m,
  match m with Ok a => f a | Raise e => Raise e end.

#[global] Instance result_fmap : FMap result := λ A B f m,
  match m with Ok a => Ok (f a) | Raise e => Raise e end.

Definition is_ok {A} (r : result A) : bool :=
  match r with Ok _ => true | Raise _ => false end.

(** [[f(x) for x in xs]]: left to right, the first exception wins. *)
Definition mapR {A B} (f : A → result B) : list A → result (list B) :=
  fix go (xs : list A) : result (list B) :=
    match xs with
    | [] => Ok []
    | x :: r => y ← f x; ys ← go r; Ok (y :: ys)
    end.

(* ================================================================== *)
(** * 2. Classes: identity, linearisation, isinstance                   *)
(* ================================================================== *)

(** Class identity is structural equality of the class tree. *)
Fixpoint klass_eqb (a b : pyclass) : bool :=
  match a, b with
  | Class m1 n1 q1 bs1 s1 i1, Class m2 n2 q2 bs2 s2 i2 =>
      String.eqb m1 m2 && String.eqb n1 n2 && String.eqb q1 q2
      && (fix go (l1 l2 : list pyclass) : bool :=
            match l1, l2 with
            | [], [] => true
            | x :: r1, y :: r2 => klass_eqb x y && go r1 r2
            | _, _ => false
            end) bs1 bs2
      && bool_decide (s1 = s2) && bool_decide (i1 = i2)
  end.

(** [c in l] for a list of classes. *)
Definition klass_in (c : pyclass) (l : list pyclass) : bool :=
  existsb (klass_eqb c) l.

(** ** The C3 linearisation ([type.__mro__]) *)

Definition in_tail (c : pyclass) (l : list pyclass) : bool :=
  match l with
  | [] => false
  | _ :: t => klass_in c t
  end.

(** The first head, in order, that occurs in the tail of no sequence. *)
Fixpoint c3_candidate (todo all : list (list pyclass)) : option pyclass :=
  match todo with
  | [] => None
  | [] :: rest => c3_candidate rest all
  | (h :: _) :: rest =>
      if existsb (in_tail h) all then c3_candidate rest all else Some h
  end.

Definition c3_remove (c : pyclass) (l : list pyclass) : list pyclass :=
  match l with
  | h :: t => if klass_eqb h c then t else l
  | [] => []
  end.

Definition is_nil {A} (l : list A) : bool :=
  match l with [] => true | _ => false end.

(** [None] is the [TypeError] "Cannot create a consistent method
    resolution order".  Every round removes a class, so the fuel given by
    [mro] below is never the reason for [None] ([c3_merge_fuel]). *)
Fixpoint c3_merge (fuel : nat) (seqs : list (list pyclass))
    : option (list pyclass) :=
  if forallb is_nil seqs then Some []
  else match fuel with
       | O => None
       | S f =>
           c ← c3_candidate seqs seqs;
           r ← c3_merge f (c3_remove c <$> seqs);
           Some (c :: r)
       end.

Definition total_length (seqs : list (list pyclass)) : nat :=
  foldr (λ l n, length l + n) 0 seqs.

Fixpoint mro (k : pyclass) : option (list pyclass) :=
  match k with
  | Class _ _ _ bs _ _ =>
      ls ← (fix go (bs : list pyclass) : option (list (list pyclass)) :=
              match bs with
              | [] => Some []
              | b :: r => l ← mro b; ls ← go r; Some (l :: ls)
              end) bs;
      r ← c3_merge (S (total_length (ls ++ [bs]))) (ls ++ [bs]);
      Some (k :: r)
  end.

(** [issubclass(k, c)]: [c] occurs in the linearisation of [k]. *)
Definition issubclass (k c : pyclass) : bool :=
  match mro k with
  | Some l => klass_in c l
  | None => false
  end.

(** The method a class resolves to: the first definition along the MRO;
    [chain] lists all of them in MRO order, so that the tail of the chain
    is what [super()] sees. *)
Definition serialize_chain (k : pyclass) : list ser_impl :=
  match mro k with
  | Some l => omap k_serialize l
  | None => []
  end.

Definition init_chain (k : pyclass) : list init_impl :=
  match mro k with
  | Some l => omap k_init l
  | None => []
  end.

(* ================================================================== *)
(** * 3. The classes of the file and of its collaborators               *)
(* ================================================================== *)

(** Identifiers of the external initialisers of torch. *)
Definition id_object : nat := 0.
Definition id_nn_Module : nat := 1.
Definition id_nn_Sequential : nat := 2.
Definition id_nn_ModuleList : nat := 3.
Definition id_nn_ModuleDict : nat := 4.
Definition id_Optimizer : nat := 5.

Definition py_object : pyclass :=
  Class "builtins" "object" "object" [] None
        (Some (InitExternal false 2 id_object)).

Definition builtin (name : string) (bases : list pyclass) : pyclass :=
  Class "builtins" name name bases None None.

Definition py_type : pyclass := builtin "type" [py_object].
Definition py_NoneType : pyclass := builtin "NoneType" [py_object].
Definition py_int : pyclass := builtin "int" [py_object].
Definition py_bool : pyclass := builtin "bool" [py_int].
Definition py_str : pyclass := builtin "str" [py_object].
Definition py_list : pyclass := builtin "list" [py_object].
Definition py_tuple : pyclass := builtin "tuple" [py_object].
Definition py_dict : pyclass := builtin "dict" [py_object].

Definition torch_Tensor : pyclass :=
  Class "torch" "Tensor" "Tensor" [py_object] None None.
Definition nn_Parameter : pyclass :=
  Class "torch.nn.parameter" "Parameter" "Parameter" [torch_Tensor] None None.

Definition nn_Module : pyclass :=
  Class "torch.nn.modules.module" "Module" "Module" [py_object] None
        (Some (InitExternal false 2 id_nn_Module)).
Definition nn_Sequential : pyclass :=
  Class "torch.nn.modules.container" "Sequential" "Sequential" [nn_Module]
        None (Some (InitExternal false 1 id_nn_Sequential)).
Definition nn_ModuleList : pyclass :=
  Class "torch.nn.modules.container" "ModuleList" "ModuleList" [nn_Module]
        None (Some (InitExternal false 1 id_nn_ModuleList)).
Definition nn_ModuleDict : pyclass :=
  Class "torch.nn.modules.container" "ModuleDict" "ModuleDict" [nn_Module]
        None (Some (InitExternal false 1 id_nn_ModuleDict)).
Definition optim_Optimizer : pyclass :=
  Class "torch.optim.optimizer" "Optimizer" "Optimizer" [py_object] None
        (Some (InitExternal false 2 id_Optimizer)).

(** The classes of [cassetta/io/modules.py]. *)
Definition this_module : string := "cassetta.io.modules".

Definition LoadableMixin : pyclass :=
  Class this_module "LoadableMixin" "LoadableMixin" [py_object]
        (Some SerLoadableMixin) None.
Definition DynamicLoadableMixin : pyclass :=
  Class this_module "DynamicLoadableMixin" "DynamicLoadableMixin"
        [LoadableMixin] None None.
Definition LoadableModule : pyclass :=
  Class this_module "LoadableModule" "LoadableModule"
        [LoadableMixin; nn_Module] None (Some InitSaveArgsSuper).
Definition LoadableSequential : pyclass :=
  Class this_module "LoadableSequential" "LoadableSequential"
        [LoadableMixin; nn_Sequential] (Some SerSequential)
        (Some InitSequential).
Definition LoadableModuleList : pyclass :=
  Class this_module "LoadableModuleList" "LoadableModuleList"
        [LoadableMixin; nn_ModuleList] (Some SerModuleList)
        (Some InitModuleList).
Definition LoadableModuleDict : pyclass :=
  Class this_module "LoadableModuleDict" "LoadableModuleDict"
        [LoadableMixin; nn_ModuleDict] (Some SerModuleDict)
        (Some InitModuleDict).
Definition LoadableOptimizer : pyclass :=
  Class this_module "LoadableOptimizer" "LoadableOptimizer"
        [LoadableMixin; optim_Optimizer] (Some SerOptimizer) None.

(** [type(v)] *)
Definition type_of (v : value) : pyclass :=
  match v with
  | VLeaf LNone => py_NoneType
  | VLeaf (LBool _) => py_bool
  | VLeaf (LInt _) => py_int
  | VLeaf (LStr _) => py_str
  | VLeaf (LTensor true _) => nn_Parameter
  | VLeaf (LTensor false _) => torch_Tensor
  | VLeaf (LOpaque n _) => Class "" n n [py_object] None None
  | VList _ => py_list
  | VTuple _ => py_tuple
  | VDict _ => py_dict
  | VObj c _ _ _ _ => c
  end.

Definition isinstance (v : value) (c : pyclass) : bool :=
  issubclass (type_of v) c.

(** [isinstance(k, c)] where [k] is itself a class object: the type of a
    class is its metaclass, [type] for every class here. *)
Definition type_of_class (k : pyclass) : pyclass := py_type.

Definition isinstance_class (k c : pyclass) : bool :=
  issubclass (type_of_class k) c.

(** [repr] of a class, as an f-string prints [type(obj)]. *)
Definition class_repr (k : pyclass) : string :=
  "<class '" +:+ k_module k +:+ "." +:+ k_qualname k +:+ "'>".

(** ** Dicts as association lists *)

Fixpoint dict_get (key : string) (d : list (string * value)) : option value :=
  match d with
  | [] => None
  | (k, v) :: r => if String.eqb k key then Some v else dict_get key r
  end.

Definition dict_has (key : string) (d : list (string * value)) : bool :=
  match dict_get key d with Some _ => true | None => false end.

(** [d[key] = v]: in place when the key exists, else appended. *)
Fixpoint dict_set (key : string) (v : value) (d : list (string * value))
    : list (string * value) :=
  match d with
  | [] => [(key, v)]
  | (k, x) :: r =>
      if String.eqb k key then (k, v) :: r else (k, x) :: dict_set key v r
  end.

(** [d[key]] *)
Definition getitem (key : string) (d : list (string * value)) : result value :=
  match dict_get key d with
  | Some v => Ok v
  | None => Raise (KeyError key)
  end.

Definition str (s : string) : value := VLeaf (LStr s).

(* ================================================================== *)
(** * 4. Serialization                                                  *)
(* ================================================================== *)

(** [LoadableMixin.__version__] *)
Definition __version__ : string := "1.0".

Definition tag_key : string := "cassetta.Loadable".

(** [LoadableMixin.serialize], lines 249-269.  [state] is
    [self.state_dict()]. *)
Definition LoadableMixin_serialize (cls : pyclass) (args kwargs : option value)
    (state : value) : value :=
  let pyclass := cls in
  let pyclass :=
    if klass_in DynamicLoadableMixin (k_bases pyclass)
    then List.last (k_bases pyclass) pyclass
    else pyclass in
  VDict [ (tag_key, str __version__);
          ("module", str (k_module pyclass));
          ("qualname", str (k_qualname pyclass));
          ("args", default (VTuple []) args);
          ("kwargs", default (VDict []) kwargs);
          ("state", state) ].

(** The record shared by the three container overrides (lines 476-483,
    505-512, 529-538): tagged with [type(self)], no ["state"] field. *)
Definition container_record (cls : pyclass) (args : value)
    (kwargs : option value) : value :=
  VDict [ (tag_key, str __version__);
          ("module", str (k_module cls));
          ("qualname", str (k_qualname cls));
          ("args", args);
          ("kwargs", default (VDict []) kwargs) ].

(** Truth value of a sequence or dict ([if args and ...]). *)
Definition truthy (v : value) : bool :=
  match v with
  | VLeaf LNone => false
  | VLeaf (LBool b) => b
  | VLeaf (LInt n) => negb (n =? 0)%Z
  | VLeaf (LStr s) => negb (String.eqb s "")
  | VLeaf _ => true
  | VList xs | VTuple xs => negb (is_nil xs)
  | VDict kvs => negb (is_nil kvs)
  | VObj _ _ _ _ _ => true
  end.

(** [isinstance(x, (torch.nn.Parameter, torch.Tensor))] *)
Definition is_parameter_or_tensor (x : value) : bool :=
  isinstance x nn_Parameter || isinstance x torch_Tensor.

(** Lines 556-558 of [LoadableOptimizer.serialize]:
    [if args and isinstance(args[0], ...): args = [[]] + list(args[1:])]. *)
Definition strip_params (args : value) : result value :=
  if truthy args then
    match args with
    | VList (x :: rest) | VTuple (x :: rest) =>
        if is_parameter_or_tensor x
        then Ok (VList (VList [] :: rest))
        else Ok args
    | VDict _ => Raise (KeyError "0")
    | _ => Raise (TypeError "object is not subscriptable")
    end
  else Ok args.

(** [LoadableOptimizer.serialize], lines 548-563, given the result of
    [super().serialize()]. *)
Definition LoadableOptimizer_serialize (super : result value) (state : value)
    : result value :=
  serialized_state ← super;
  match serialized_state with
  | VDict d =>
      let d := dict_set "state" state d in
      let args := default (VTuple []) (dict_get "args" d) in
      let kwargs := default (VDict []) (dict_get "kwargs" d) in
      args ← strip_params args;
      let d := dict_set "args" args d in
      let d := dict_set "kwargs" kwargs d in
      Ok (VDict d)
  | _ => Raise (TypeError "object does not support item assignment")
  end.

(** Method dispatch for [self.serialize()]: [chain] is the list of
    [serialize] definitions along [type(self).__mro__]; the head runs and
    [super().serialize()] is the run of the tail.  [kids] is
    [module.serialize()] for the children, in order; only the container
    overrides look at it. *)
Fixpoint run_serialize (chain : list ser_impl) (cls : pyclass)
    (args kwargs : option value) (state : value)
    (kids : result (list (string * value))) : result value :=
  match chain with
  | [] => Raise (AttributeError "serialize")
  | SerLoadableMixin :: _ => Ok (LoadableMixin_serialize cls args kwargs state)
  | SerSequential :: _ =>
      ks ← kids; Ok (container_record cls (VList ks.*2) kwargs)
  | SerModuleList :: _ =>
      ks ← kids; Ok (container_record cls (VList [VList ks.*2]) kwargs)
  | SerModuleDict :: _ =>
      ks ← kids; Ok (container_record cls (VList [VDict ks]) kwargs)
  | SerOptimizer :: rest =>
      LoadableOptimizer_serialize
        (run_serialize rest cls args kwargs state kids) state
  end.

(** [self.serialize()] *)
Fixpoint serialize (self : value) : result value :=
  match self with
  | VObj cls args kwargs state modules =>
      run_serialize (serialize_chain cls) cls args kwargs state
        ((fix go (ms : list (string * value)) : result (list (string * value)) :=
            match ms with
            | [] => Ok []
            | (name, m) :: r =>
                x ← serialize m; xs ← go r; Ok ((name, x) :: xs)
            end) modules)
  | _ => Raise (AttributeError "serialize")
  end.

(** [LoadableMixin._nested_serialize], lines 160-179. *)
Fixpoint _nested_serialize (obj : value) : result value :=
  if isinstance obj nn_Module then
    if negb (isinstance obj LoadableMixin) then
      Raise (TypeError
        ("Only loadable modules (which inherit from "
         +:+ "LoadableMixin) can be serialized. Type "
         +:+ class_repr (type_of obj) +:+ " does not."))
    else serialize obj
  else
    match obj with
    | VList xs => VList <$> mapR _nested_serialize xs
    | VTuple xs => VTuple <$> mapR _nested_serialize xs
    | VDict kvs =>
        VDict <$> mapR (λ kv, v ← _nested_serialize kv.2; Ok (kv.1, v)) kvs
    | _ => Ok obj
    end.

(* ================================================================== *)
(** * 5. Instances under construction and the external world            *)
(* ================================================================== *)

(** [self] while methods run on it.  [i_captures] is a ghost counter of
    the executions of the assignment [self._args = ...] (line 243). *)
Record instance : Type := mk_instance {
  i_class : pyclass;
  i_args : option value;
  i_kwargs : option value;
  i_state : value;
  i_modules : list (string * value);
  i_captures : nat
}.

Definition to_value (self : instance) : value :=
  VObj (i_class self) (i_args self) (i_kwargs self) (i_state self)
       (i_modules self).

(** [klass.__new__(pyclass)]: no attribute yet. *)
Definition blank (cls : pyclass) : instance :=
  mk_instance cls None None (VDict []) [] 0.

(** What external code may touch: the state and the children, never the
    capture record. *)
Definition attrs : Type := value * list (string * value).

Definition attrs_of (self : instance) : attrs :=
  (i_state self, i_modules self).

Definition set_attrs (a : attrs) (self : instance) : instance :=
  mk_instance (i_class self) (i_args self) (i_kwargs self) a.1 a.2
              (i_captures self).

(** Methods on [self]: state passing with exceptions.  An exception keeps
    the state reached so far, as in Python. *)
Definition M (A : Type) : Type := instance → result A * instance.

#[global] Instance M_ret : MRet M := λ A a self, (Ok a, self).
#[global] Instance M_bind : MBind M := λ A B f m self,
  match m self with
  | (Ok a, self') => f a self'
  | (Raise e, self') => (Raise e, self')
  end.

Definition raise {A} (e : exn) : M A := λ self, (Raise e, self).
Definition liftR {A} (r : result A) : M A := λ self, (r, self).
Definition get_self : M instance := λ self, (Ok self, self).
Definition put_self (s : instance) : M unit := λ _, (Ok (), s).

(** An [__init__], applied to [*args] and [**kwargs]. *)
Definition initializer : Type := list value → list (string * value) → M unit.

(** Results of external code. *)
Inductive ext (A : Type) : Type :=
| ExtOk (a : A)
| ExtRaise (msg : string).
Arguments ExtOk {A} a.
Arguments ExtRaise {A} msg.

Definition lift_ext {A} (x : ext A) : result A :=
  match x with
  | ExtOk a => Ok a
  | ExtRaise msg => Raise (External msg)
  end.

(** Everything the file calls but does not define.
    - [import_qualname m q]: [cassetta.io.utils.import_qualname]; [None]
      when it raises.
    - [ext_init_pre]/[ext_init_post]: an external [__init__] body, before
      and after its [super().__init__(...)] call; the first also gives the
      arguments it forwards, [None] when it does not call [super].
    - [ext_method cls name]: the torch method [name] that [super()]
      reaches from a container of class [cls]; it returns the attributes
      it leaves behind even when it raises.
    - [ext_load_state_dict]: [obj.load_state_dict(state)].
    - [ext_iter], [ext_mapping]: unpacking [*x] / [**x] of an object that
      is not a list, tuple or dict.
    - [torch_load]: [torch.load(path)]. *)
Class Runtime : Type := {
  import_qualname : value → value → option pyclass;
  ext_init_pre : nat → list value → list (string * value) → attrs →
                 ext (attrs * option (list value * list (string * value)));
  ext_init_post : nat → list value → list (string * value) → attrs →
                  ext attrs;
  ext_method : pyclass → string → list value → attrs → option string * attrs;
  ext_load_state_dict : pyclass → attrs → value → ext attrs;
  ext_iter : value → ext (list value);
  ext_mapping : value → ext (list (string * value));
  torch_load : value → ext value
}.

(* ================================================================== *)
(** * 6. Conformance checks (lines 25-61)                               *)
(* ================================================================== *)

Definition validate_loadable_module (module : value) : result unit :=
  if negb (isinstance module LoadableMixin) then
    Raise (TypeError
      ("Only Loadable modules can be added."
       +:+ " '" +:+ k_name (type_of module) +:+ "' is not a LoadableMixin."))
  else Ok ().

Fixpoint validate_loadable_modules (modules : list value) : result unit :=
  match modules with
  | [] => Ok ()
  | module :: rest =>
      validate_loadable_module module;; validate_loadable_modules rest
  end.

(* ================================================================== *)
(** * 7. Argument capture and initialisers                              *)
(* ================================================================== *)

Definition hasattr_args (self : instance) : bool :=
  match i_args self with Some _ => true | None => false end.

Definition set__args (v : value) : M unit := λ self,
  (Ok (), mk_instance (i_class self) (Some v) (i_kwargs self) (i_state self)
                      (i_modules self) (S (i_captures self))).

Definition set__kwargs (v : value) : M unit := λ self,
  (Ok (), mk_instance (i_class self) (i_args self) (Some v) (i_state self)
                      (i_modules self) (i_captures self)).

(** [LoadableMixin.save_args], lines 221-247: the wrapper it returns. *)
Definition save_args (init : initializer) : initializer :=
  λ args kwargs,
    self ← get_self;
    (if negb (hasattr_args self) then
       a ← liftR (_nested_serialize (VTuple args));
       set__args a;;
       k ← liftR (_nested_serialize (VDict kwargs));
       set__kwargs k
     else mret ());;
    init args kwargs.

(** Binding of the signature [(self, modules=None)]. *)
Definition bind_modules (args : list value) (kwargs : list (string * value))
    : result value :=
  match args, kwargs with
  | [], [] => Ok (VLeaf LNone)
  | [m], [] => Ok m
  | [], [(k, m)] =>
      if String.eqb k "modules" then Ok m
      else Raise (TypeError
             ("__init__() got an unexpected keyword argument '" +:+ k +:+ "'"))
  | _, _ => Raise (TypeError "__init__() got too many arguments")
  end.

(** Binding of the signature [(self, *args)]. *)
Definition bind_star_args (kwargs : list (string * value)) : result unit :=
  match kwargs with
  | [] => Ok ()
  | (k, _) :: _ =>
      Raise (TypeError
        ("__init__() got an unexpected keyword argument '" +:+ k +:+ "'"))
  end.

(** The loop of [LoadableModuleDict.__init__], lines 521-523. *)
Fixpoint check_items (items : list (string * value)) : result unit :=
  match items with
  | [] => Ok ()
  | (key, module) :: rest =>
      if negb (isinstance module LoadableMixin) then
        Raise (TypeError ("Module '" +:+ key +:+ "' must be Loadable"))
      else check_items rest
  end.

Section Initialisers.
Context {R : Runtime}.

(** An initialiser of torch or of user code, given what [super()]
    resolves to from it. *)
Definition external_init (id : nat) (super : initializer) : initializer :=
  λ args kwargs,
    self ← get_self;
    pre ← liftR (lift_ext (ext_init_pre id args kwargs (attrs_of self)));
    put_self (set_attrs pre.1 self);;
    match pre.2 with
    | Some fwd => super fwd.1 fwd.2
    | None => mret ()
    end;;
    self ← get_self;
    post ← liftR (lift_ext (ext_init_post id args kwargs (attrs_of self)));
    put_self (set_attrs post self).

(** [LoadableSequential.__init__], lines 460-462. *)
Definition LoadableSequential_init (super : initializer) : initializer :=
  λ args kwargs,
    liftR (bind_star_args kwargs);;
    super args [];;
    self ← get_self;
    liftR (validate_loadable_modules (i_modules self).*2).

(** [LoadableModuleList.__init__], lines 489-491. *)
Definition LoadableModuleList_init (super : initializer) : initializer :=
  λ args kwargs,
    modules ← liftR (bind_modules args kwargs);
    super [modules] [];;
    self ← get_self;
    liftR (validate_loadable_modules (i_modules self).*2).

(** [LoadableModuleDict.__init__], lines 518-523. *)
Definition LoadableModuleDict_init (super : initializer) : initializer :=
  λ args kwargs,
    modules ← liftR (bind_modules args kwargs);
    super [modules] [];;
    self ← get_self;
    liftR (check_items (i_modules self)).

(** [self.__init__] applied to the arguments for the list of [__init__]
    definitions along the MRO; [InitSaveArgsSuper] is the body shared by
    [LoadableModule] (lines 452-454) and the class built by
    [make_loadable] (lines 108-110). *)
Fixpoint run_init (chain : list init_impl) : initializer :=
  match chain with
  | [] => λ _ _, mret ()
  | impl :: rest =>
      let super := run_init rest in
      match impl with
      | InitSaveArgsSuper => save_args (λ args kwargs, super args kwargs)
      | InitSequential => LoadableSequential_init super
      | InitModuleList => LoadableModuleList_init super
      | InitModuleDict => LoadableModuleDict_init super
      | InitExternal wrapped _ id =>
          if wrapped then save_args (external_init id super)
          else external_init id super
      end
  end.

(** The call of a class on unpacked arguments. *)
Definition construct (cls : pyclass) (args : list value)
    (kwargs : list (string * value)) : result value :=
  match run_init (init_chain cls) args kwargs (blank cls) with
  | (Ok _, self) => Ok (to_value self)
  | (Raise e, _) => Raise e
  end.
End Initialisers.

(* ================================================================== *)
(** * 8. make_loadable and deserialization                              *)
(* ================================================================== *)

(** The class statement of [make_loadable], lines 107-113: defined in
    this module, bases [(DynamicLoadableMixin, klass)], renamed. *)
Definition DynamicModule (klass : pyclass) : pyclass :=
  Class this_module
        ("Loadable" +:+ k_name klass) ("Loadable" +:+ k_name klass)
        [DynamicLoadableMixin; klass] None (Some InitSaveArgsSuper).

(** [make_loadable], lines 81-114.  The class statement raises when the
    bases have no consistent linearisation. *)
Definition make_loadable (klass : pyclass) : result pyclass :=
  match mro (DynamicModule klass) with
  | Some _ => Ok (DynamicModule klass)
  | None =>
      Raise (TypeError
        "Cannot create a consistent method resolution order (MRO) for bases")
  end.

Definition sub_get (key : string) (sub : list (string * result value))
    : result value :=
  match List.find (λ kr, String.eqb kr.1 key) sub with
  | Some kr => kr.2
  | None => Raise (KeyError key)
  end.

Section Engine.
Context {R : Runtime}.

(** Lines 187-198: the [try] around [import_qualname] and its handler;
    a missing field raises [KeyError] from the handler itself. *)
Definition resolve (state : list (string * value)) : result pyclass :=
  match dict_get "module" state, dict_get "qualname" state with
  | Some m, Some q =>
      match import_qualname m q with
      | Some k => Ok k
      | None => Raise (ImportError "Could not import type" q "from module" m)
      end
  | _, None => Raise (KeyError "qualname")
  | None, Some _ => Raise (KeyError "module")
  end.

(** Unpacking of [*args] and [**kwargs] at a call. *)
Definition star_args (v : value) : result (list value) :=
  match v with
  | VList xs | VTuple xs => Ok xs
  | VDict kvs => Ok (str <$> kvs.*1)
  | _ => lift_ext (ext_iter v)
  end.

Definition star_kwargs (v : value) : result (list (string * value)) :=
  match v with
  | VDict kvs => Ok kvs
  | _ => lift_ext (ext_mapping v)
  end.

(** [obj.load_state_dict(state)] *)
Definition load_state_dict (obj state : value) : result value :=
  match obj with
  | VObj c a k st ms =>
      new ← lift_ext (ext_load_state_dict c (st, ms) state);
      Ok (VObj c a k new.1 new.2)
  | _ => Raise (AttributeError "load_state_dict")
  end.

(** Lines 185-209: the branch of a dict that carries the tag.  [sub]
    holds, for every entry of [state], the result of
    [_nested_unserialize] on its value; only ["args"] and ["kwargs"]
    are looked at. *)
Definition unserialize_record (state : list (string * value))
    (sub : list (string * result value)) (klass : option pyclass)
    : result value :=
  klass ← match klass with
          | None => resolve state
          | Some k => Ok k
          end;
  klass ← (if negb (isinstance_class klass LoadableMixin)
           then make_loadable klass
           else Ok klass);
  args ← sub_get "args" sub;
  kwargs ← sub_get "kwargs" sub;
  a ← star_args args;
  k ← star_kwargs kwargs;
  obj ← construct klass a k;
  if dict_has "state" state then
    st ← getitem "state" state;
    load_state_dict obj st
  else Ok obj.

(** [LoadableMixin._nested_unserialize], lines 181-219.  The recursive
    calls on the entries of a dict are taken once, entry by entry, so
    that the recursion is structural; [_nested_unserialize_record]
    below states the tagged branch in the shape of the source. *)
Fixpoint _nested_unserialize (obj : value) (klass : option pyclass)
    : result value :=
  match obj with
  | VDict kvs =>
      let sub :=
        (fix go (kvs : list (string * value)) : list (string * result value) :=
           match kvs with
           | [] => []
           | (key, v) :: r => (key, _nested_unserialize v None) :: go r
           end) kvs in
      if dict_has tag_key kvs then unserialize_record kvs sub klass
      else VDict <$> mapR (λ kr : string * result value,
                             v ← kr.2; Ok (kr.1, v)) sub
  | VList xs => VList <$> mapR (λ x, _nested_unserialize x None) xs
  | VTuple xs => VTuple <$> mapR (λ x, _nested_unserialize x None) xs
  | _ => Ok obj
  end.

(** [LoadableMixin.load], lines 289-307. *)
Definition load (cls : pyclass) (loadable_state : value) : result value :=
  loadable_state ←
    (if negb (isinstance loadable_state py_dict)
     then lift_ext (torch_load loadable_state)
     else Ok loadable_state);
  let hint := if negb (klass_eqb cls LoadableMixin) then Some cls else None in
  _nested_unserialize loadable_state hint.

(** [load_module], lines 64-78. *)
Definition load_module (model_state : value) : result value :=
  load LoadableMixin model_state.

(** ** Container mutations (lines 464-474, 493-503, 525-527) *)

(** [super().name(...)]: the torch method. *)
Definition super_call (name : string) (args : list value) : M unit :=
  λ self,
    let r := ext_method (i_class self) name args (attrs_of self) in
    match r.1 with
    | None => (Ok (), set_attrs r.2 self)
    | Some msg => (Raise (External msg), set_attrs r.2 self)
    end.

Definition LoadableSequential_append (module : value) : M unit :=
  liftR (validate_loadable_module module);;
  super_call "append" [module].

Definition LoadableSequential_extend (modules : list value) : M unit :=
  liftR (validate_loadable_modules modules);;
  super_call "extend" [VList modules].

Definition LoadableSequential_insert (index module : value) : M unit :=
  liftR (validate_loadable_module module);;
  super_call "insert" [index; module].

Definition LoadableModuleList_append (module : value) : M unit :=
  liftR (validate_loadable_module module);;
  super_call "append" [module].

Definition LoadableModuleList_extend (modules : list value) : M unit :=
  liftR (validate_loadable_modules modules);;
  super_call "extend" [VList modules].

Definition LoadableModuleList_insert (index module : value) : M unit :=
  liftR (validate_loadable_module module);;
  super_call "insert" [index; module].

Definition LoadableModuleDict_setitem (key module : value) : M unit :=
  liftR (validate_loadable_module module);;
  super_call "__setitem__" [key; module].
End Engine.

(* ================================================================== *)
(** * 9. save                                                           *)
(* ================================================================== *)

(** What [save] acts on: the warnings issued and the files written. *)
Record world : Type := mk_world {
  w_warnings : list string;
  w_files : list (string * value)
}.

Definition warn (msg : string) (w : world) : world :=
  mk_world (w_warnings w ++ [msg]) (w_files w).

(** [torch.save(obj, path)] *)
Definition torch_save (obj : value) (path : string) (w : world) : world :=
  mk_world (w_warnings w) ((path, obj) :: w_files w).

(** Number of parameters of a bound [__init__]: [self] is not counted.
    A [save_args] wrapper has the signature [( *args, **kwargs)]. *)
Definition nparams (impl : init_impl) : nat :=
  match impl with
  | InitSaveArgsSuper => 2
  | InitSequential => 1
  | InitModuleList => 1
  | InitModuleDict => 1
  | InitExternal wrapped n _ => if wrapped then 2 else n
  end.

(** [len(signature(self.__init__).parameters)] *)
Definition signature_parameters (cls : pyclass) : nat :=
  match init_chain cls with
  | impl :: _ => nparams impl
  | [] => 0
  end.

(** [hasattr(self, "_args")] *)
Definition hasattr__args (self : value) : bool :=
  match self with
  | VObj _ (Some _) _ _ _ => true
  | _ => false
  end.

Definition save_warning (cls : pyclass) : string :=
  "Object of type " +:+ k_name cls +:+ " does not have "
  +:+ "saved arguments. Did you decorate __init__ with "
  +:+ "@save_args ?".

(** [LoadableMixin.save], lines 271-287. *)
Definition save (self : value) (path : string) (w : world)
    : result unit * world :=
  let num_params := signature_parameters (type_of self) in
  let w :=
    if negb (hasattr__args self) && Nat.ltb 1 num_params
    then warn (save_warning (type_of self)) w
    else w in
  match serialize self with
  | Ok r => (Ok (), torch_save r path w)
  | Raise e => (Raise e, w)
  end.

(* ================================================================== *)
(** * 10. A reference runtime                                           *)
(* ================================================================== *)

(** A small model of torch and of the import system, used to run the
    engine on concrete graphs.  The general theorems below hold for every
    [Runtime]; this one fixes the behaviour of the torch initialisers and
    container methods in the simplest way that agrees with torch on
    well-formed calls. *)
Module Torch.

(** Keys of [_modules] in an ordered container: [str(index)]. *)
Definition index_key (i : nat) : string := pretty i.

Definition enumerate (start : nat) (ms : list value)
    : list (string * value) :=
  imap (λ i m, (index_key (start + i), m)) ms.

Definition all_modules (ms : list value) : bool :=
  forallb (λ m, isinstance m nn_Module) ms.

(** Classes that can be imported by name. *)
Definition registry : list pyclass :=
  [ LoadableModule; LoadableSequential; LoadableModuleList;
    LoadableModuleDict; LoadableOptimizer; LoadableMixin;
    nn_Module; nn_Sequential; nn_ModuleList; nn_ModuleDict ].

Definition lookup_class (extra : list pyclass) (m q : value)
    : option pyclass :=
  match m, q with
  | VLeaf (LStr m), VLeaf (LStr q) =>
      List.find (λ k, String.eqb (k_module k) m
                      && String.eqb (k_qualname k) q) (extra ++ registry)%list
  | _, _ => None
  end.

Definition no_fwd : option (list value * list (string * value)) := None.
Definition fwd_nothing : option (list value * list (string * value)) :=
  Some ([], []).

(** Before [super().__init__()]: torch containers call it without
    arguments; [nn.Module.__init__] accepts no argument and sets up empty
    tables; any other initialiser is taken to forward what it got. *)
Definition init_pre (id : nat) (args : list value)
    (kwargs : list (string * value)) (a : attrs)
    : ext (attrs * option (list value * list (string * value))) :=
  if Nat.eqb id id_object then ExtOk (a, no_fwd)
  else if Nat.eqb id id_nn_Module then
    match args, kwargs with
    | [], [] => ExtOk ((VDict [], []), no_fwd)
    | _, _ => ExtRaise "TypeError: Module.__init__() takes 1 positional argument"
    end
  else if Nat.eqb id id_nn_Sequential || Nat.eqb id id_nn_ModuleList
          || Nat.eqb id id_nn_ModuleDict
  then ExtOk (a, fwd_nothing)
  else if Nat.eqb id id_Optimizer then ExtOk (a, no_fwd)
  else ExtOk (a, Some (args, kwargs)).

(** After it: the containers register their children. *)
Definition init_post (id : nat) (args : list value)
    (kwargs : list (string * value)) (a : attrs) : ext attrs :=
  if Nat.eqb id id_nn_Sequential then
    if all_modules args then ExtOk (a.1, enumerate 0 args)
    else ExtRaise "TypeError: is not a Module subclass"
  else if Nat.eqb id id_nn_ModuleList then
    match args with
    | [VLeaf LNone] => ExtOk a
    | [VList ms] | [VTuple ms] =>
        if all_modules ms then ExtOk (a.1, enumerate 0 ms)
        else ExtRaise "TypeError: is not a Module subclass"
    | _ => ExtRaise "TypeError: ModuleList.extend should be called with an iterable"
    end
  else if Nat.eqb id id_nn_ModuleDict then
    match args with
    | [VLeaf LNone] => ExtOk a
    | [VDict kvs] =>
        if all_modules kvs.*2 then ExtOk (a.1, kvs)
        else ExtRaise "TypeError: is not a Module subclass"
    | _ => ExtRaise "TypeError: ModuleDict.update should be called with an iterable"
    end
  else ExtOk a.

Fixpoint insert_at (i : nat) (m : value) (ms : list value) : list value :=
  match i, ms with
  | O, _ => m :: ms
  | S j, x :: r => x :: insert_at j m r
  | S _, [] => [m]
  end.

(** The torch methods behind [super()] in the containers. *)
Definition method (cls : pyclass) (name : string) (args : list value)
    (a : attrs) : option string * attrs :=
  let n := length a.2 in
  if String.eqb name "append" then
    match args with
    | [m] => (None, (a.1, (a.2 ++ [(index_key n, m)])%list))
    | _ => (Some "TypeError", a)
    end
  else if String.eqb name "extend" then
    match args with
    | [VList ms] => (None, (a.1, (a.2 ++ enumerate n ms)%list))
    | _ => (Some "TypeError", a)
    end
  else if String.eqb name "insert" then
    match args with
    | [VLeaf (LInt i); m] =>
        if (0 <=? i)%Z && (i <=? Z.of_nat n)%Z
        then (None, (a.1, enumerate 0 (insert_at (Z.to_nat i) m a.2.*2)))
        else (Some "IndexError", a)
    | _ => (Some "TypeError", a)
    end
  else if String.eqb name "__setitem__" then
    match args with
    | [VLeaf (LStr key); m] => (None, (a.1, dict_set key m a.2))
    | _ => (Some "TypeError", a)
    end
  else (Some "AttributeError", a).

(** [nn.Module.load_state_dict] is strict: the state given must be a
    dict with the keys of the state the object has, no key missing and
    none unexpected; otherwise it raises [RuntimeError]. *)
Definition same_keys (have given : value) : bool :=
  match have, given with
  | VDict a, VDict b =>
      forallb (λ key, dict_has key b) a.*1
      && forallb (λ key, dict_has key a) b.*1
  | _, _ => false
  end.

Definition load_state (cls : pyclass) (a : attrs) (state : value)
    : ext attrs :=
  if same_keys a.1 state then ExtOk (state, a.2)
  else ExtRaise "RuntimeError: Error(s) in loading state_dict".

(** [extra]: user classes that can be imported besides [registry]. *)
Definition runtime (extra : list pyclass) : Runtime := {|
  import_qualname := lookup_class extra;
  ext_init_pre := init_pre;
  ext_init_post := init_post;
  ext_method := method;
  ext_load_state_dict := load_state;
  ext_iter := λ _, ExtRaise "TypeError: object is not iterable";
  ext_mapping := λ _, ExtRaise "TypeError: argument after ** must be a mapping";
  torch_load := λ _, ExtRaise "FileNotFoundError"
|}.

End Torch.

(* ================================================================== *)
(** * 10b. Example objects and auxiliary definitions                    *)
(* ================================================================== *)

(** The exception of [validate_loadable_module]. *)
Definition not_loadable_error (module : value) : exn :=
  TypeError ("Only Loadable modules can be added."
             +:+ " '" +:+ k_name (type_of module)
             +:+ "' is not a LoadableMixin.").

(** A plain torch module and a loadable one. *)
Definition nn_ReLU : pyclass :=
  Class "torch.nn.modules.activation" "ReLU" "ReLU" [nn_Module] None None.

Definition relu : value := VObj nn_ReLU None None (VDict []) [].

Definition loadable_module : value :=
  VObj LoadableModule (Some (VTuple [])) (Some (VDict [])) (VDict []) [].

Definition sequential_of_one : instance :=
  mk_instance LoadableSequential None None (VDict [])
              [("0", loadable_module)] 0.

(** A user model whose [__init__(self, width)] is not decorated with
    [save_args]: one parameter besides [self]. *)
Definition Net : pyclass :=
  Class "__main__" "Net" "Net" [LoadableMixin; nn_Module] None
        (Some (InitExternal false 1 100)).

Definition net : value := VObj Net None None (VDict []) [].

Definition empty_world : world := mk_world [] [].

(** A user optimizer, [class MyAdam(LoadableOptimizer, Adam)] with a
    decorated [__init__(self, params, lr)]. *)
Definition optim_Adam : pyclass :=
  Class "torch.optim.adam" "Adam" "Adam" [optim_Optimizer] None
        (Some (InitExternal false 2 101)).

Definition MyAdam : pyclass :=
  Class "__main__" "MyAdam" "MyAdam" [LoadableOptimizer; optim_Adam] None
        (Some (InitExternal true 2 102)).

Definition weight : value := VLeaf (LTensor true 1).
Definition bias : value := VLeaf (LTensor true 2).
Definition lr : value := VLeaf (LOpaque "float" 3).
Definition adam_state : value :=
  VDict [("state", VDict []); ("param_groups", VList [])].

(** The exception of [_nested_serialize], naming [type(obj)]. *)
Definition conformance_error (cls : pyclass) : exn :=
  TypeError ("Only loadable modules (which inherit from "
             +:+ "LoadableMixin) can be serialized. Type "
             +:+ class_repr cls +:+ " does not.").


(** The exceptions that [serialize] itself can raise. *)
Definition raised_by_serialize (e : exn) : Prop :=
  e = AttributeError "serialize"
  ∨ e = KeyError "0"
  ∨ e = TypeError "object is not subscriptable"
  ∨ e = TypeError "object does not support item assignment".

(** Initialisers decorated with [save_args]. *)
Definition is_wrapped (impl : init_impl) : bool :=
  match impl with
  | InitSaveArgsSuper => true
  | InitExternal wrapped _ _ => wrapped
  | _ => false
  end.

(** What every method leaves alone: the class, and the capture record
    once [_args] exists. *)
Definition keeps_capture (s s' : instance) : Prop :=
  i_class s' = i_class s
  ∧ (i_args s ≠ None →
     i_args s' = i_args s ∧ i_kwargs s' = i_kwargs s
     ∧ i_captures s' = i_captures s).

Definition frame {A} (m : M A) : Prop := ∀ s, keeps_capture s (m s).2.

(** A three-level hierarchy with decorated initialisers that forward
    fewer arguments than they get:
    [Leaf.__init__(self, width, depth)] calls [super().__init__(width)]
    and [Mid.__init__(self, width)] calls [super().__init__()]. *)
Definition id_Leaf : nat := 200.
Definition id_Mid : nat := 201.

Definition Mid : pyclass :=
  Class "__main__" "Mid" "Mid" [LoadableMixin; nn_Module] None
        (Some (InitExternal true 1 id_Mid)).
Definition Leaf : pyclass :=
  Class "__main__" "Leaf" "Leaf" [Mid] None
        (Some (InitExternal true 2 id_Leaf)).

Definition chain_runtime : Runtime := {|
  import_qualname := Torch.lookup_class [Leaf; Mid];
  ext_init_pre := λ id args kwargs a,
    if Nat.eqb id id_Leaf then ExtOk (a, Some (take 1 args, []))
    else if Nat.eqb id id_Mid then ExtOk (a, Some ([], []))
    else Torch.init_pre id args kwargs a;
  ext_init_post := Torch.init_post;
  ext_method := Torch.method;
  ext_load_state_dict := λ _ a state, ExtOk (state, a.2);
  ext_iter := λ _, ExtRaise "TypeError: object is not iterable";
  ext_mapping := λ _, ExtRaise "TypeError: argument after ** must be a mapping";
  torch_load := λ _, ExtRaise "FileNotFoundError"
|}.

(** The results of [_nested_unserialize] on the entries of a dict. *)
Definition sub_of {R : Runtime} (kvs : list (string * value))
    : list (string * result value) :=
  (λ kv, (kv.1, _nested_unserialize kv.2 None)) <$> kvs.

(** The version gate as the specification words it: loading a record
    whose tag value is not the supported version fails. *)
Definition version_gate (R : Runtime) : Prop :=
  ∀ kvs v, dict_get tag_key kvs = Some v → v ≠ str __version__ →
           is_ok (load_module (VDict kvs)) = false.

(** A record of a [LoadableModule] stamped with another version. *)
Definition stale_record : list (string * value) :=
  [ (tag_key, str "0.9");
    ("module", str this_module);
    ("qualname", str "LoadableModule");
    ("args", VTuple []);
    ("kwargs", VDict []);
    ("state", VDict [("weight", weight)]) ].

(** The same record for a module without parameters or buffers, as
    [LoadableModule().serialize()] gives it but for the version. *)
Definition outdated_record : list (string * value) :=
  [ (tag_key, str "0.9");
    ("module", str this_module);
    ("qualname", str "LoadableModule");
    ("args", VTuple []);
    ("kwargs", VDict []);
    ("state", VDict []) ].

(** A [LoadableModule] with some state. *)
Definition trained_module : value :=
  VObj LoadableModule (Some (VTuple [])) (Some (VDict []))
       (VDict [("weight", weight)]) [].

(** A sequential pipeline of one such module. *)
Definition pipeline : value :=
  VObj LoadableSequential None None (VDict []) [("0", trained_module)].

(** A sequential container of one [LoadableModule()], neither with
    parameters: [LoadableSequential(LoadableModule())]. *)
Definition bare_pipeline : value :=
  VObj LoadableSequential None None (VDict []) [("0", loadable_module)].

(** The tagging rule as the specification words it, for a class [K]:
    an instance of [make_loadable(K)] serializes under the names of [K]. *)
Definition wrapper_tags_original (K : pyclass) : Prop :=
  ∀ c a k st ms d,
    make_loadable K = Ok c →
    serialize (VObj c a k st ms) = Ok (VDict d) →
    dict_get "module" d = Some (str (k_module K))
    ∧ dict_get "qualname" d = Some (str (k_qualname K)).

(** The record of [LoadableMixin.serialize] under the names of [K]. *)
Definition record_of (K : pyclass) (args kwargs : option value)
    (state : value) : value :=
  VDict [ (tag_key, str __version__);
          ("module", str (k_module K));
          ("qualname", str (k_qualname K));
          ("args", default (VTuple []) args);
          ("kwargs", default (VDict []) kwargs);
          ("state", state) ].

(** A plain torch layer, [nn.Linear]. *)
Definition nn_Linear : pyclass :=
  Class "torch.nn.modules.linear" "Linear" "Linear" [nn_Module] None
        (Some (InitExternal false 2 103)).

Definition is_import_error (e : exn) : bool :=
  match e with
  | ImportError _ _ _ _ => true
  | _ => false
  end.

(** Computations on [self] that never raise [ImportError]. *)
Definition no_import {A} (m : M A) : Prop :=
  ∀ s e, (m s).1 = Raise e → is_import_error e = false.

(** The last clause of the claim on class hints, as it is worded: with a
    hint, loading a tagged record raises no type-resolution error. *)
Definition hint_excludes_import_errors (R : Runtime) : Prop :=
  ∀ state hint e,
    dict_has tag_key state = true →
    _nested_unserialize (VDict state) (Some hint) = Raise e →
    is_import_error e = false.

(** A record without ["module"] and ["qualname"], whose only argument is
    the record of a type that cannot be imported. *)
Definition missing_record : value :=
  VDict [ (tag_key, str __version__);
          ("module", str "nowhere");
          ("qualname", str "Missing");
          ("args", VTuple []);
          ("kwargs", VDict []) ].

Definition outer_record : list (string * value) :=
  [ (tag_key, str __version__);
    ("args", VTuple [missing_record]);
    ("kwargs", VDict []) ].

(* ================================================================== *)
(** * 10c. The store model: references and in-place mutation            *)
(* ================================================================== *)

(** The tree model above gives every use of an object its own copy.
    Here objects live in a store and values are references, so that two
    references to one object see each other's mutations.  Only what
    [_nested_serialize] itself does to the store is modelled:
    [obj.serialize()] of a loadable module is a parameter. *)
Module Store.

(** A value held in a variable or in a container slot: an immutable
    primitive, or a reference to an object of the store. *)
Inductive rvalue : Type :=
| Imm (x : leaf)
| Ref (a : nat).

(** Objects of the store.  [CObject cls content] is any object that
    is not a list, tuple or dict, with its mutable content. *)
Inductive cell : Type :=
| CList (xs : list rvalue)
| CTuple (xs : list rvalue)
| CDict (kvs : list (string * rvalue))
| CObject (cls : pyclass) (content : list Z).

Definition heap : Type := list cell.

(** A new object. *)
Definition alloc (h : heap) (c : cell) : rvalue * heap :=
  (Ref (length h), (h ++ [c])%list).

(** What a reference denotes: the tree read through the store. *)
Inductive tree : Type :=
| TLeaf (x : leaf)
| TList (ts : list tree)
| TTuple (ts : list tree)
| TDict (kts : list (string * tree))
| TObject (cls : pyclass) (content : list Z).

Fixpoint read (fuel : nat) (h : heap) (v : rvalue) : option tree :=
  match fuel with
  | O => None
  | S f =>
      match v with
      | Imm x => Some (TLeaf x)
      | Ref a =>
          c ← h !! a;
          match c with
          | CList xs => TList <$> mapM (read f h) xs
          | CTuple xs => TTuple <$> mapM (read f h) xs
          | CDict kvs =>
              TDict <$> mapM (λ kv, t ← read f h kv.2; Some (kv.1, t)) kvs
          | CObject cls content => Some (TObject cls content)
          end
      end
  end.

(** Trees made of lists, tuples, dicts and primitives only. *)
Fixpoint plain (t : tree) : bool :=
  match t with
  | TLeaf _ => true
  | TList ts | TTuple ts => forallb plain ts
  | TDict kts => forallb (λ kt, plain kt.2) kts
  | TObject _ _ => false
  end.

(** The value of the tree model that a tree stands for. *)
Fixpoint to_value (t : tree) : value :=
  match t with
  | TLeaf x => VLeaf x
  | TList ts => VList (to_value <$> ts)
  | TTuple ts => VTuple (to_value <$> ts)
  | TDict kts => VDict ((λ kt, (kt.1, to_value kt.2)) <$> kts)
  | TObject cls _ => VObj cls None None (VDict []) []
  end.

Section tree_induction.
Variable P : tree → Prop.
Hypothesis HLeaf : ∀ x, P (TLeaf x).
Hypothesis HList : ∀ ts, Forall P ts → P (TList ts).
Hypothesis HTuple : ∀ ts, Forall P ts → P (TTuple ts).
Hypothesis HDict : ∀ kts, Forall (λ kt, P kt.2) kts → P (TDict kts).
Hypothesis HObject : ∀ cls content, P (TObject cls content).

Fixpoint tree_ind' (t : tree) : P t :=
  let all := fix all (l : list tree) : Forall P l :=
    match l with
    | [] => @List.Forall_nil _ P
    | x :: r => @List.Forall_cons _ P x r (tree_ind' x) (all r)
    end in
  let alls := fix alls (l : list (string * tree))
      : Forall (λ kt, P kt.2) l :=
    match l with
    | [] => @List.Forall_nil _ _
    | (k, x) :: r =>
        @List.Forall_cons _ (λ kt, P kt.2) (k, x) r (tree_ind' x) (alls r)
    end in
  match t with
  | TLeaf x => HLeaf x
  | TList ts => HList ts (all ts)
  | TTuple ts => HTuple ts (all ts)
  | TDict kts => HDict kts (alls kts)
  | TObject cls content => HObject cls content
  end.
End tree_induction.

(** In-place mutation keeps the kind of an object. *)
Definition same_kind (c c' : cell) : bool :=
  match c, c' with
  | CList _, CList _ | CTuple _, CTuple _ | CDict _, CDict _ => true
  | CObject cls _, CObject cls' _ => klass_eqb cls cls'
  | _, _ => false
  end.

(** A comprehension that threads the store. *)
Definition map_heap {A B} (f : heap → A → result (B * heap))
    : heap → list A → result (list B * heap) :=
  fix go (h : heap) (xs : list A) {struct xs} : result (list B * heap) :=
    match xs with
    | [] => Ok ([], h)
    | x :: r =>
        y ← f h x;
        ys ← go y.2 r;
        Ok (y.1 :: ys.1, ys.2)
    end.

Section Serializer.
(** [obj.serialize()] on the loadable module at an address. *)
Variable serialize_obj : heap → nat → result (rvalue * heap).

(** [LoadableMixin._nested_serialize], lines 160-179, on the store:
    [type(obj)(...)] and the dict literal are new objects, [return
    obj] is the reference that came in.  The fuel stands for the
    recursion limit of the interpreter. *)
Fixpoint _nested_serialize (fuel : nat) (h : heap) (obj : rvalue)
    : result (rvalue * heap) :=
  match fuel with
  | O => Raise RecursionError
  | S f =>
      match obj with
      | Imm _ => Ok (obj, h)
      | Ref a =>
          match h !! a with
          | None => Raise (External "dangling reference")
          | Some (CObject cls _) =>
              if issubclass cls nn_Module then
                if negb (issubclass cls LoadableMixin) then
                  Raise (conformance_error cls)
                else serialize_obj h a
              else Ok (obj, h)
          | Some (CList xs) =>
              r ← map_heap (_nested_serialize f) h xs;
              Ok (alloc r.2 (CList r.1))
          | Some (CTuple xs) =>
              r ← map_heap (_nested_serialize f) h xs;
              Ok (alloc r.2 (CTuple r.1))
          | Some (CDict kvs) =>
              r ← map_heap
                    (λ h kv, v ← _nested_serialize f h kv.2;
                             Ok ((kv.1, v.1), v.2)) h kvs;
              Ok (alloc r.2 (CDict r.1))
          end
      end
  end.

(** Line 243, [self._args = cls._nested_serialize(args)]: the call
    has packed the positional arguments into a new tuple. *)
Definition capture (fuel : nat) (h : heap) (args : list rvalue)
    : result (rvalue * heap) :=
  let packed := alloc h (CTuple args) in
  _nested_serialize fuel packed.2 packed.1.

(** The claim on snapshots as it is worded: whatever the argument,
    mutating it in place afterwards leaves what the snapshot
    denotes unchanged. *)
Definition snapshot_isolated : Prop :=
  ∀ fuel h a c s h' t c',
    h !! a = Some c →
    _nested_serialize fuel h (Ref a) = Ok (s, h') →
    read fuel h' s = Some t →
    same_kind c c' = true →
    read fuel (<[a:=c']> h') s = Some t.
End Serializer.

(** An array-like argument, [numpy.zeros(3)] say. *)
Definition ndarray : pyclass :=
  Class "numpy" "ndarray" "ndarray" [py_object] None None.

Definition heap_with_array : heap := [CObject ndarray [0; 0; 0]%Z].

(** [[1, [2, 3], {"k": (4,)}]] *)
Definition heap_with_list : heap :=
  [ CList [Imm (LInt 2); Imm (LInt 3)];
    CTuple [Imm (LInt 4)];
    CDict [("k", Ref 1)];
    CList [Imm (LInt 1); Ref 0; Ref 2] ].

Definition no_modules : heap → nat → result (rvalue * heap) :=
  λ _ _, Raise (AttributeError "serialize").

End Store.

(* ================================================================== *)
(** * 10d. Further functions of the package                             *)
(* ================================================================== *)


(** The fields of a record that deserialization reads. *)
Definition record_keys : list string :=
  [tag_key; "module"; "qualname"; "args"; "kwargs"; "state"].

(** The children of a container as its [serialize] lays them out in
    ["args"]: positionally for [LoadableSequential], as one list for
    [LoadableModuleList], as one dict for [LoadableModuleDict]. *)
Definition children_layout (impl : ser_impl) (rs : list (string * value))
    : value :=
  match impl with
  | SerSequential => VList rs.*2
  | SerModuleList => VList [VList rs.*2]
  | _ => VList [VDict rs]
  end.

Definition is_container (impl : ser_impl) : bool :=
  match impl with
  | SerSequential | SerModuleList | SerModuleDict => true
  | _ => false
  end.

(** [LoadableTrainer._get_components_state_dict]
    (training/trainers.py, lines 196-216): the comprehension
    [{name: member.serialize() for name, member in component.items()}]. *)
Definition _get_components_state_dict (component : list (string * value))
    : result value :=
  VDict <$> mapR (λ nm, r ← serialize nm.2; Ok (nm.1, r)) component.

(** What [StateMixin] reads files with; [suffix] is
    [pathlib.Path(p).suffix]. *)
Class StateFiles : Type := {
  suffix : string → string;
  yaml_load : string → ext value;
  json_load : string → ext value;
  torch_load_path : string → ext value
}.

(** [setattr(self, key, value)] on the attribute table of an object. *)
Definition setattr (attrs : list (string * value)) (kv : string * value)
    : list (string * value) :=
  dict_set kv.1 kv.2 attrs.

(** [StateMixin.load_state_dict], lines 365-393, on the attributes of
    [self]; it returns [self].  A path is a [str] here. *)
Definition StateMixin_load_state_dict {F : StateFiles} (state : value)
    (attrs : list (string * value)) : result (list (string * value)) :=
  state ←
    match state with
    | VLeaf (LStr path) =>
        if String.eqb (suffix path) ".yaml" then lift_ext (yaml_load path)
        else if String.eqb (suffix path) ".json"
             then lift_ext (json_load path)
             else lift_ext (torch_load_path path)
    | _ => Ok state
    end;
  match state with
  | VDict kvs => Ok (foldl setattr attrs kvs)
  | _ => Raise (AttributeError "items")
  end.

(** ** cassetta/core/utils.py *)

(** [mode in ('gt', '>')] and the like. *)
Definition mode_in (mode : string) (names : list string) : bool :=
  existsb (String.eqb mode) names.

(** [_compare_versions], lines 98-123. *)
Fixpoint _compare_versions (version1 : list Z) (mode : string)
    (version2 : list Z) : bool :=
  match version1, version2 with
  | v1 :: rest1, v2 :: rest2 =>
      if mode_in mode ["gt"; ">"] then
        if (v1 >? v2)%Z then true
        else if (v1 <? v2)%Z then false
        else _compare_versions rest1 mode rest2
      else if mode_in mode ["ge"; ">="] then
        if (v1 >? v2)%Z then true
        else if (v1 <? v2)%Z then false
        else _compare_versions rest1 mode rest2
      else if mode_in mode ["lt"; "<"] then
        if (v1 <? v2)%Z then true
        else if (v1 >? v2)%Z then false
        else _compare_versions rest1 mode rest2
      else if mode_in mode ["le"; "<="] then
        if (v1 <? v2)%Z then true
        else if (v1 >? v2)%Z then false
        else _compare_versions rest1 mode rest2
      else _compare_versions rest1 mode rest2
  | _, _ =>
      if mode_in mode ["gt"; "lt"; ">"; "<"] then false else true
  end.

(** Lexicographic order of two versions over the positions both have. *)
Fixpoint zip_compare (version1 version2 : list Z) : comparison :=
  match version1, version2 with
  | v1 :: rest1, v2 :: rest2 =>
      match (v1 ?= v2)%Z with
      | Eq => zip_compare rest1 rest2
      | c => c
      end
  | _, _ => Eq
  end.

(** [x[:n]] for a list. *)
Definition slice_to (n : Z) (xs : list value) : list value :=
  if (0 <=? n)%Z then take (Z.to_nat n) xs
  else take (Z.to_nat (Z.of_nat (length xs) + n)) xs.

(** [ensure_list], lines 10-36, on lists, tuples and single values
    (ranges and generators are not values of this model).  [length] is
    [None] or an integer, [default] is [kwargs.get('default')].  The
    function is the list returned; that a list argument is itself
    extended by [x += ...] is not part of this model. *)
Definition ensure_list (x : value) (length : option Z) (crop : bool)
    (default : option value) : list value :=
  let x :=
    match x with
    | VList xs => xs
    | VTuple xs => xs
    | _ => [x]
    end in
  let truthy_length :=
    match length with
    | Some n => if (n =? 0)%Z then None else Some n
    | None => None
    end in
  let x :=
    match truthy_length with
    | Some n =>
        if (Z.of_nat (List.length x) <? n)%Z then
          let fill :=
            match default with
            | Some d => d
            | None => List.last x (VLeaf LNone)
            end in
          (x ++ replicate (Z.to_nat (n - Z.of_nat (List.length x))) fill)%list
        else x
    | None => x
    end in
  match truthy_length with
  | Some n => if crop then slice_to n x else x
  | None => x
  end.

(** [ensure_tuple], lines 39-48. *)
Definition ensure_tuple (x : value) (length : option Z) (crop : bool)
    (default : option value) : value :=
  VTuple (ensure_list x length crop default).

(** ** A file system for examples *)

(** [Path(p).name] and [Path(p).suffix] for a path that does not end in
    a separator: the name is what follows the last ["/"], the suffix
    starts at the last dot of the name unless that dot is its first or
    its last character. *)
Definition is_char (c x : Ascii.ascii) : bool := Ascii.eqb x c.

Fixpoint take_until (c : Ascii.ascii) (s : list Ascii.ascii)
    : list Ascii.ascii :=
  match s with
  | [] => []
  | x :: r => if is_char c x then [] else x :: take_until c r
  end.

Definition path_name (p : string) : list Ascii.ascii :=
  rev (take_until "/"%char (rev (String.list_ascii_of_string p))).

Definition path_suffix (p : string) : string :=
  let name := path_name p in
  let ext := take_until "."%char (rev name) in
  let j := List.length ext in
  if existsb (is_char "."%char) name
     && Nat.ltb 0 j && Nat.ltb (S j) (List.length name)
  then String.string_of_list_ascii ("."%char :: rev ext)
  else "".

(** No file can be read. *)
Definition no_files : StateFiles := {|
  suffix := path_suffix;
  yaml_load := λ _, ExtRaise "FileNotFoundError";
  json_load := λ _, ExtRaise "FileNotFoundError";
  torch_load_path := λ _, ExtRaise "FileNotFoundError"
|}.

(* ================================================================== *)
(** * 11. Facts about classes                                           *)
(* ================================================================== *)

Lemma klass_eqb_eq (a b : pyclass) : klass_eqb a b = true ↔ a = b.
Proof.
  revert b. induction a as [m n q bs s i IH] using klass_ind'.
  intros [m' n' q' bs' s' i']. simpl.
  rewrite !andb_true_iff, !String.eqb_eq, !bool_decide_eq_true.
  assert (Hbs : (fix go (l1 l2 : list pyclass) : bool :=
                   match l1, l2 with
                   | [], [] => true
                   | x :: r1, y :: r2 => klass_eqb x y && go r1 r2
                   | _, _ => false
                   end) bs bs' = true ↔ bs = bs').
  { clear -IH. revert bs'. induction IH as [|x r Hx _ IHr]; intros [|y r'];
      split; try done.
    - rewrite andb_true_iff, Hx, IHr. by intros [-> ->].
    - intros [= -> ->]. rewrite andb_true_iff, Hx, IHr. done. }
  rewrite Hbs. split.
  - by intros [[[[[-> ->] ->] ->] ->] ->].
  - by intros [= -> -> -> -> -> ->].
Qed.

Lemma klass_eqb_refl (k : pyclass) : klass_eqb k k = true.
Proof. by apply klass_eqb_eq. Qed.

Lemma klass_eqb_neq (a b : pyclass) : klass_eqb a b = false ↔ a ≠ b.
Proof.
  rewrite <- not_true_iff_false, klass_eqb_eq. done.
Qed.

#[global] Instance pyclass_eq_dec : EqDecision pyclass.
Proof.
  intros a b. destruct (klass_eqb a b) eqn:E.
  - left. by apply klass_eqb_eq.
  - right. by apply klass_eqb_neq.
Defined.

Lemma klass_in_In (c : pyclass) (l : list pyclass) :
  klass_in c l = true ↔ c ∈ l.
Proof.
  unfold klass_in. rewrite existsb_exists. split.
  - intros (x & Hx & E). apply klass_eqb_eq in E as ->.
    by apply list_elem_of_In.
  - intros H. exists c. split; [by apply list_elem_of_In|apply klass_eqb_refl].
Qed.

Lemma klass_in_not_In (c : pyclass) (l : list pyclass) :
  klass_in c l = false ↔ c ∉ l.
Proof. rewrite <- not_true_iff_false, klass_in_In. done. Qed.

(** ** The linearisation contains exactly the classes of its inputs *)

Lemma c3_remove_elem (c x : pyclass) (l : list pyclass) :
  x ∈ l → x = c ∨ x ∈ c3_remove c l.
Proof.
  destruct l as [|h t]; simpl; [by auto|].
  destruct (klass_eqb h c) eqn:E; [|by auto].
  apply klass_eqb_eq in E as ->.
  rewrite elem_of_cons. tauto.
Qed.

Lemma c3_remove_sub (c x : pyclass) (l : list pyclass) :
  x ∈ c3_remove c l → x ∈ l.
Proof.
  destruct l as [|h t]; simpl; [done|].
  destruct (klass_eqb h c); [|done].
  rewrite elem_of_cons. tauto.
Qed.

Lemma c3_candidate_head (todo all : list (list pyclass)) (c : pyclass) :
  c3_candidate todo all = Some c → ∃ l, l ∈ todo ∧ c ∈ l.
Proof.
  induction todo as [|[|h t] rest IH]; simpl; [done| |].
  - intros H. destruct (IH H) as (l & Hl & Hc).
    exists l. split; [by apply elem_of_cons; right|done].
  - destruct (existsb (in_tail h) all).
    + intros H. destruct (IH H) as (l & Hl & Hc).
      exists l. split; [by apply elem_of_cons; right|done].
    + intros [= ->]. exists (c :: t).
      split; apply elem_of_cons; by left.
Qed.

Lemma c3_merge_complete (fuel : nat) (seqs : list (list pyclass))
    (r : list pyclass) :
  c3_merge fuel seqs = Some r → ∀ l x, l ∈ seqs → x ∈ l → x ∈ r.
Proof.
  revert seqs r. induction fuel as [|f IH]; intros seqs r; simpl.
  - destruct (forallb is_nil seqs) eqn:E; [|done].
    intros _ l x Hl Hx. rewrite forallb_forall in E.
    apply list_elem_of_In, E in Hl. destruct l; [inversion Hx|done].
  - destruct (forallb is_nil seqs) eqn:E.
    + intros _ l x Hl Hx. rewrite forallb_forall in E.
      apply list_elem_of_In, E in Hl. destruct l; [inversion Hx|done].
    + destruct (c3_candidate seqs seqs) as [c|]; simpl; [|done].
      destruct (c3_merge f (c3_remove c <$> seqs)) as [r'|] eqn:Er;
        simpl; [|done].
      intros [= <-] l x Hl Hx.
      destruct (c3_remove_elem c x l Hx) as [->|Hx'].
      * apply elem_of_cons; by left.
      * apply elem_of_cons; right.
        apply (IH _ _ Er (c3_remove c l) x); [|done].
        by apply list_elem_of_fmap_2.
Qed.

Lemma c3_merge_sound (fuel : nat) (seqs : list (list pyclass))
    (r : list pyclass) :
  c3_merge fuel seqs = Some r → ∀ x, x ∈ r → ∃ l, l ∈ seqs ∧ x ∈ l.
Proof.
  revert seqs r. induction fuel as [|f IH]; intros seqs r; simpl.
  - destruct (forallb is_nil seqs); [|done].
    intros [= <-] x Hx. inversion Hx.
  - destruct (forallb is_nil seqs).
    + intros [= <-] x Hx. inversion Hx.
    + destruct (c3_candidate seqs seqs) as [c|] eqn:Ec; simpl; [|done].
      destruct (c3_merge f (c3_remove c <$> seqs)) as [r'|] eqn:Er;
        simpl; [|done].
      intros [= <-] x Hx. apply elem_of_cons in Hx as [->|Hx].
      * by apply c3_candidate_head in Ec.
      * destruct (IH _ _ Er x Hx) as (l' & Hl' & Hxl').
        apply list_elem_of_fmap in Hl' as (l & -> & Hl).
        exists l. split; [done|]. by apply c3_remove_sub in Hxl'.
Qed.

(** ** The fuel of [mro] is enough *)

Lemma c3_remove_length (c : pyclass) (l : list pyclass) :
  (length (c3_remove c l) ≤ length l)%nat.
Proof.
  destruct l as [|h t]; [done|]. simpl.
  destruct (klass_eqb h c); simpl; lia.
Qed.

Lemma total_length_remove_le (c : pyclass) (seqs : list (list pyclass)) :
  (total_length (c3_remove c <$> seqs) ≤ total_length seqs)%nat.
Proof.
  induction seqs as [|l r IH]; [done|]. cbn [fmap list_fmap total_length foldr].
  pose proof (c3_remove_length c l). unfold total_length in IH.
  fold (c3_remove c <$> r). lia.
Qed.

Lemma c3_candidate_is_head (todo all : list (list pyclass)) (c : pyclass) :
  c3_candidate todo all = Some c → ∃ t, (c :: t) ∈ todo.
Proof.
  induction todo as [|[|h t] rest IH]; simpl; [done| |].
  - intros H. destruct (IH H) as [t' Ht']. exists t'.
    by apply elem_of_cons; right.
  - destruct (existsb (in_tail h) all).
    + intros H. destruct (IH H) as [t' Ht']. exists t'.
      by apply elem_of_cons; right.
    + intros [= ->]. exists t. by apply elem_of_cons; left.
Qed.

(** Removing a class that heads one of the sequences shortens them. *)
Lemma total_length_remove_lt (c : pyclass) (t : list pyclass)
    (seqs : list (list pyclass)) :
  (c :: t) ∈ seqs →
  (total_length (c3_remove c <$> seqs) < total_length seqs)%nat.
Proof.
  induction seqs as [|l r IH]; [by intros ?%elem_of_nil|].
  intros [<-|Hin]%elem_of_cons.
  - pose proof (total_length_remove_le c r) as Hle.
    cbn [fmap list_fmap total_length foldr c3_remove] in *.
    rewrite klass_eqb_refl. fold (c3_remove c <$> r).
    unfold total_length in Hle. simpl. lia.
  - specialize (IH Hin). pose proof (c3_remove_length c l).
    cbn [fmap list_fmap total_length foldr] in *.
    fold (c3_remove c <$> r). unfold total_length in IH. lia.
Qed.

(** Beyond the total length of the sequences, more fuel changes
    nothing: [None] from [mro] is an inconsistent hierarchy. *)
Lemma c3_merge_fuel (f1 f2 : nat) (seqs : list (list pyclass)) :
  (total_length seqs < f1)%nat → (total_length seqs < f2)%nat →
  c3_merge f1 seqs = c3_merge f2 seqs.
Proof.
  revert f2 seqs. induction f1 as [|f1 IH]; intros f2 seqs H1 H2; [lia|].
  destruct f2 as [|f2]; [lia|]. simpl.
  destruct (forallb is_nil seqs); [done|].
  destruct (c3_candidate seqs seqs) as [c|] eqn:Ec; [|done]. simpl.
  destruct (c3_candidate_is_head _ _ _ Ec) as [t Ht].
  pose proof (total_length_remove_lt c t seqs Ht).
  rewrite (IH f2); [done|lia|lia].
Qed.

#[local] Arguments c3_merge : simpl never.

Lemma mro_unfold (k : pyclass) :
  mro k =
    ls ← mapM mro (k_bases k);
    r ← c3_merge (S (total_length (ls ++ [k_bases k]))) (ls ++ [k_bases k]);
    Some (k :: r).
Proof.
  destruct k as [m n q bs s i]. simpl.
  assert (E : (fix go (bs : list pyclass) : option (list (list pyclass)) :=
                 match bs with
                 | [] => Some []
                 | b :: r => l ← mro b; ls ← go r; Some (l :: ls)
                 end) bs = mapM mro bs).
  { induction bs as [|b r IH]; simpl; [done|]. by rewrite IH. }
  by rewrite E.
Qed.

Lemma mro_head (k : pyclass) (l : list pyclass) :
  mro k = Some l → ∃ r, l = k :: r.
Proof.
  rewrite mro_unfold. destruct (mapM mro (k_bases k)) as [ls|]; simpl; [|done].
  match goal with
  | |- context [c3_merge ?f ?x] => destruct (c3_merge f x) as [r|]
  end; simpl; [|done].
  intros [= <-]. by exists r.
Qed.

(** The linearisation of a class contains that of each class in it. *)
Lemma mro_closed (k : pyclass) :
  ∀ lk, mro k = Some lk →
  ∀ c lc, c ∈ lk → mro c = Some lc → ∀ x, x ∈ lc → x ∈ lk.
Proof.
  induction k as [m n q bs s i IH] using klass_ind'.
  intros lk Hk c lc Hc Hlc x Hx.
  rewrite mro_unfold in Hk. simpl in Hk.
  destruct (mapM mro bs) as [ls|] eqn:Els; simpl in Hk; [|done].
  match type of Hk with
  | context [c3_merge ?f ?x] => destruct (c3_merge f x) as [r|] eqn:Er
  end; simpl in Hk; [|done].
  injection Hk as <-.
  apply mapM_Some in Els.
  apply elem_of_cons in Hc as [->|Hc].
  { rewrite mro_unfold in Hlc. simpl in Hlc.
    apply mapM_Some in Els.
    rewrite Els in Hlc. simpl in Hlc. rewrite Er in Hlc. simpl in Hlc.
    injection Hlc as <-. done. }
  apply elem_of_cons; right.
  assert (Hbase : ∃ b lb, b ∈ bs ∧ mro b = Some lb ∧ lb ∈ ls ∧ c ∈ lb).
  { destruct (c3_merge_sound _ _ _ Er c Hc) as (l & Hl & Hcl).
    apply elem_of_app in Hl as [Hl|Hl].
    - apply list_elem_of_lookup in Hl as [j Hj].
      destruct (Forall2_lookup_r _ _ _ _ _ Els Hj) as (b & Hb & Hmb).
      exists b, l. split_and!; [|done| |done].
      + by apply list_elem_of_lookup; exists j.
      + by apply list_elem_of_lookup; exists j.
    - apply list_elem_of_singleton in Hl as ->.
      apply list_elem_of_lookup in Hcl as [j Hj].
      destruct (Forall2_lookup_l _ _ _ _ _ Els Hj) as (lb & Hlb & Hmb).
      exists c, lb. split_and!; [|done| |].
      + by apply list_elem_of_lookup; exists j.
      + by apply list_elem_of_lookup; exists j.
      + destruct (mro_head _ _ Hmb) as [r' ->]. apply elem_of_cons; by left. }
  destruct Hbase as (b & lb & Hb & Hmb & Hlb & Hclb).
  rewrite Forall_forall in IH.
  pose proof (IH b Hb lb Hmb c lc Hclb Hlc x Hx) as Hxlb.
  apply (c3_merge_complete _ _ _ Er lb x); [|done].
  apply elem_of_app; by left.
Qed.

Lemma c3_merge_S (f : nat) (seqs : list (list pyclass)) :
  c3_merge (S f) seqs =
    if forallb is_nil seqs then Some []
    else c ← c3_candidate seqs seqs;
         r ← c3_merge f (c3_remove c <$> seqs);
         Some (c :: r).
Proof. reflexivity. Qed.

Lemma mro_DynamicLoadableMixin :
  mro DynamicLoadableMixin
  = Some [DynamicLoadableMixin; LoadableMixin; py_object].
Proof. reflexivity. Qed.

(** Wrapping a class outside the [LoadableMixin] family puts
    [LoadableMixin] right behind the wrapper in the MRO, ahead of every
    class of the wrapped hierarchy. *)
Lemma mro_DynamicModule (K : pyclass) (l : list pyclass) :
  mro (DynamicModule K) = Some l → issubclass K LoadableMixin = false →
  ∃ rest,
    l = DynamicModule K :: DynamicLoadableMixin :: LoadableMixin :: rest.
Proof.
  intros Hl Hsub. rewrite mro_unfold in Hl.
  change (k_bases (DynamicModule K)) with [DynamicLoadableMixin; K] in Hl.
  destruct (mro K) as [lk|] eqn:EK; cycle 1.
  { apply bind_Some in Hl as (ls & Hls & _). apply mapM_Some in Hls.
    apply Forall2_cons_inv_l in Hls as (? & ? & _ & Hls & _).
    apply Forall2_cons_inv_l in Hls as (? & ? & HK & _). congruence. }
  assert (Hls : mapM mro [DynamicLoadableMixin; K]
                = Some [[DynamicLoadableMixin; LoadableMixin; py_object]; lk]).
  { apply mapM_Some. constructor; [apply mro_DynamicLoadableMixin|].
    constructor; [done|constructor]. }
  rewrite Hls in Hl. clear Hls.
  unfold issubclass in Hsub. rewrite EK in Hsub.
  destruct (mro_head _ _ EK) as [lk' ->].
  assert (HLM : LoadableMixin ∉ K :: lk') by by apply klass_in_not_In.
  assert (HDLM : DynamicLoadableMixin ∉ K :: lk').
  { intros Hin. apply HLM.
    apply (mro_closed K _ EK DynamicLoadableMixin _ Hin
             mro_DynamicLoadableMixin).
    apply elem_of_cons; right. apply elem_of_cons; by left. }
  apply not_elem_of_cons in HLM as [HLMK HLM].
  apply not_elem_of_cons in HDLM as [HDLMK HDLM].
  apply klass_in_not_In in HLM, HDLM.
  assert (E1 : klass_eqb DynamicLoadableMixin K = false)
    by by apply klass_eqb_neq.
  assert (E2 : klass_eqb K DynamicLoadableMixin = false)
    by (apply klass_eqb_neq; congruence).
  assert (E3 : klass_eqb LoadableMixin K = false) by by apply klass_eqb_neq.
  cbn [mbind option_bind] in Hl.
  cbn [app total_length foldr length Nat.add] in Hl.
  rewrite c3_merge_S in Hl.
  cbn [forallb is_nil andb c3_candidate existsb in_tail orb] in Hl.
  change (klass_in DynamicLoadableMixin [LoadableMixin; py_object])
    with false in Hl.
  rewrite HDLM in Hl.
  cbn [klass_in existsb orb] in Hl. rewrite E1 in Hl.
  cbn [orb fmap list_fmap c3_remove mbind option_bind] in Hl.
  change (klass_eqb DynamicLoadableMixin DynamicLoadableMixin) with true in Hl.
  rewrite E2 in Hl. cbn iota in Hl.
  rewrite c3_merge_S in Hl.
  cbn [forallb is_nil andb c3_candidate existsb in_tail orb] in Hl.
  change (klass_in LoadableMixin [py_object]) with false in Hl.
  change (klass_in LoadableMixin []) with false in Hl.
  rewrite HLM in Hl.
  cbn [orb mbind option_bind] in Hl.
  match type of Hl with
  | context [c3_merge ?f ?x] => destruct (c3_merge f x) as [r|]
  end; [|done].
  cbn [mbind option_bind] in Hl. injection Hl as <-. by eexists.
Qed.

(* ================================================================== *)
(** * 12. Conformance checks of the containers                          *)
(* ================================================================== *)

Lemma validate_loadable_module_rejects (module : value) :
  isinstance module LoadableMixin = false →
  validate_loadable_module module = Raise (not_loadable_error module).
Proof. intros H. unfold validate_loadable_module. by rewrite H. Qed.

Lemma validate_loadable_module_accepts (module : value) :
  isinstance module LoadableMixin = true →
  validate_loadable_module module = Ok ().
Proof. intros H. unfold validate_loadable_module. by rewrite H. Qed.

(** The loop stops at the first element that does not conform. *)
Lemma validate_loadable_modules_rejects (good : list value) (bad : value)
    (rest : list value) :
  Forall (λ m, isinstance m LoadableMixin = true) good →
  isinstance bad LoadableMixin = false →
  validate_loadable_modules (good ++ bad :: rest)
  = Raise (not_loadable_error bad).
Proof.
  intros Hgood Hbad. induction Hgood as [|m good Hm _ IH]; simpl.
  - by rewrite validate_loadable_module_rejects.
  - by rewrite validate_loadable_module_accepts.
Qed.

Lemma validate_loadable_modules_accepts (modules : list value) :
  Forall (λ m, isinstance m LoadableMixin = true) modules →
  validate_loadable_modules modules = Ok ().
Proof.
  induction 1 as [|m ms Hm _ IH]; simpl; [done|].
  by rewrite validate_loadable_module_accepts.
Qed.

Section Containers.
Context {R : Runtime}.

(** On conforming children the overrides are the torch methods. *)
Lemma LoadableSequential_append_accepts (module : value) (self : instance) :
  isinstance module LoadableMixin = true →
  LoadableSequential_append module self = super_call "append" [module] self.
Proof.
  intros H. unfold LoadableSequential_append, mbind, M_bind, liftR.
  by rewrite validate_loadable_module_accepts.
Qed.

Lemma LoadableModuleList_extend_accepts (modules : list value)
    (self : instance) :
  Forall (λ m, isinstance m LoadableMixin = true) modules →
  LoadableModuleList_extend modules self
  = super_call "extend" [VList modules] self.
Proof.
  intros H. unfold LoadableModuleList_extend, mbind, M_bind, liftR.
  by rewrite validate_loadable_modules_accepts.
Qed.

(** C5.  Every mutation of the three containers ([append], [extend],
    [insert] of [LoadableSequential] and [LoadableModuleList], keyed
    [__setitem__] of [LoadableModuleDict]) raises [TypeError] when given
    a child that is not a [LoadableMixin], whatever torch's own method
    would do, and leaves [self] exactly as it was: the check runs before
    the torch method is reached.  For [extend], the batch may hold
    conforming children before and any children after the offending
    one. *)
Theorem conformance_rejection (self : instance) (module index key : value)
    (good rest : list value) :
  isinstance module LoadableMixin = false →
  Forall (λ m, isinstance m LoadableMixin = true) good →
  LoadableSequential_append module self
    = (Raise (not_loadable_error module), self)
  ∧ LoadableSequential_extend (good ++ module :: rest) self
    = (Raise (not_loadable_error module), self)
  ∧ LoadableSequential_insert index module self
    = (Raise (not_loadable_error module), self)
  ∧ LoadableModuleList_append module self
    = (Raise (not_loadable_error module), self)
  ∧ LoadableModuleList_extend (good ++ module :: rest) self
    = (Raise (not_loadable_error module), self)
  ∧ LoadableModuleList_insert index module self
    = (Raise (not_loadable_error module), self)
  ∧ LoadableModuleDict_setitem key module self
    = (Raise (not_loadable_error module), self).
Proof.
  intros Hbad Hgood.
  unfold LoadableSequential_append, LoadableSequential_extend,
    LoadableSequential_insert, LoadableModuleList_append,
    LoadableModuleList_extend, LoadableModuleList_insert,
    LoadableModuleDict_setitem, mbind, M_bind, liftR.
  rewrite validate_loadable_module_rejects by done.
  rewrite validate_loadable_modules_rejects by done.
  done.
Qed.
End Containers.

Lemma conformance_rejection_witness :
  @LoadableSequential_extend (Torch.runtime [])
     ([loadable_module] ++ relu :: [loadable_module]) sequential_of_one
  = (Raise (not_loadable_error relu), sequential_of_one)
  ∧ i_modules sequential_of_one = [("0", loadable_module)].
Proof.
  split; [|reflexivity].
  apply (@conformance_rejection (Torch.runtime []) sequential_of_one relu
           (VLeaf (LInt 0)) (str "k") [loadable_module] [loadable_module]).
  - reflexivity.
  - constructor; [reflexivity|constructor].
Defined.

(* ================================================================== *)
(** * 13. save                                                          *)
(* ================================================================== *)

(** [save] warns exactly when there is no [_args] and the bound
    [__init__] has more than one parameter; the record is written
    whenever [serialize] returns, warning or not. *)
Lemma save_spec (self : value) (path : string) (w : world) :
  let warned :=
    negb (hasattr__args self)
    && Nat.ltb 1 (signature_parameters (type_of self)) in
  let w' := if warned then warn (save_warning (type_of self)) w else w in
  save self path w
  = match serialize self with
    | Ok r => (Ok (), torch_save r path w')
    | Raise e => (Raise e, w')
    end.
Proof. reflexivity. Qed.

Lemma save_persists (self : value) (path : string) (w : world) (r : value) :
  serialize self = Ok r →
  ∃ w', save self path w = (Ok (), w')
        ∧ w_files w' = (path, r) :: w_files w.
Proof.
  intros H. rewrite save_spec, H. cbv zeta.
  eexists; split; [done|]. by destruct (_ && _).
Qed.

(** With exactly one parameter besides [self] and no capture record,
    [save] is silent: the test is [num_params > 1] although
    [signature] of the bound method has already dropped [self]. *)
Lemma save_one_parameter_silent (cls : pyclass) (st : value)
    (ms : list (string * value)) (kw : option value) (path : string)
    (w : world) :
  signature_parameters cls = 1 →
  w_warnings (save (VObj cls None kw st ms) path w).2 = w_warnings w.
Proof.
  intros H. rewrite save_spec. cbn [type_of hasattr__args negb andb].
  rewrite H. cbn. by destruct (run_serialize _ _ _ _ _ _).
Qed.

(** C7 (the code at the failing input).  [Net] has no capture record and
    its constructor takes one argument besides [self]; [save] writes the
    record and issues no warning. *)
Theorem save_net_no_warning :
  hasattr__args net = false
  ∧ signature_parameters (type_of net) = 1
  ∧ ∃ r, serialize net = Ok r
         ∧ save net "net.tar" empty_world
           = (Ok (), mk_world [] [("net.tar", r)]).
Proof. split; [done|]. split; [done|]. eexists. split; reflexivity. Qed.

(* ================================================================== *)
(** * 14. LoadableOptimizer.serialize                                   *)
(* ================================================================== *)

Lemma dict_get_set_eq (key : string) (v : value) (d : list (string * value)) :
  dict_get key (dict_set key v d) = Some v.
Proof.
  induction d as [|[k x] r IH]; simpl.
  - by rewrite String.eqb_refl.
  - destruct (String.eqb k key) eqn:E; simpl; by rewrite E.
Qed.

Lemma dict_get_set_ne (key key' : string) (v : value)
    (d : list (string * value)) :
  key ≠ key' → dict_get key' (dict_set key v d) = dict_get key' d.
Proof.
  intros Hne. induction d as [|[k x] r IH]; simpl.
  - by apply String.eqb_neq in Hne as ->.
  - destruct (String.eqb k key) eqn:E; simpl.
    + apply String.eqb_eq in E as ->.
      by apply String.eqb_neq in Hne as ->.
    + by rewrite IH.
Qed.

(** [LoadableOptimizer.serialize] on the record of
    [LoadableMixin.serialize]: the state is refreshed in place and the
    arguments go through [strip_params]. *)
Lemma LoadableOptimizer_serialize_record (v m q a k st st' : value) :
  LoadableOptimizer_serialize
    (Ok (VDict [ (tag_key, v); ("module", m); ("qualname", q);
                 ("args", a); ("kwargs", k); ("state", st') ])) st
  = (args ← strip_params a;
     Ok (VDict [ (tag_key, v); ("module", m); ("qualname", q);
                 ("args", args); ("kwargs", k); ("state", st) ])).
Proof. reflexivity. Qed.

(** What the test of line 557 does catch: for an optimizer whose
    [serialize] resolves to [LoadableOptimizer.serialize] over
    [LoadableMixin.serialize], and whose first captured positional
    argument is itself a [torch.Tensor] or [nn.Parameter], the record
    has the empty list in place of that argument, the other arguments
    unchanged after it, and [state_dict()] under ["state"]. *)
Lemma optimizer_params_excluded (cls : pyclass) (params : value)
    (others : list value) (kwargs : option value) (state : value)
    (modules : list (string * value)) (chain : list ser_impl) :
  serialize_chain cls = SerOptimizer :: SerLoadableMixin :: chain →
  is_parameter_or_tensor params = true →
  ∃ d, serialize (VObj cls (Some (VTuple (params :: others))) kwargs
                       state modules) = Ok (VDict d)
       ∧ dict_get "args" d = Some (VList (VList [] :: others))
       ∧ dict_get "state" d = Some state
       ∧ dict_get tag_key d = Some (str __version__).
Proof.
  intros Hchain Hparam. cbn [serialize]. rewrite Hchain.
  cbn [run_serialize]. unfold LoadableMixin_serialize.
  rewrite LoadableOptimizer_serialize_record.
  cbn [default from_option id strip_params truthy is_nil negb].
  rewrite Hparam. cbn [mbind result_bind].
  eexists. split; [reflexivity|]. done.
Qed.

(** The test looks at the argument itself: an iterable of parameters,
    which is what torch optimizers are given, is kept as it is. *)
Lemma optimizer_parameter_list_kept (others : list value) :
  strip_params (VTuple (VList [weight; bias] :: others))
  = Ok (VTuple (VList [weight; bias] :: others)).
Proof. reflexivity. Qed.

(** C6 (the code at the failing input).  An optimizer built on the
    parameters of a model, [MyAdam([weight, bias], lr)]: its first
    captured argument refers to the model parameters, but line 557
    asks whether that argument is itself a tensor, which a list of
    parameters is not, so the record keeps the parameters under
    ["args"] and no empty placeholder takes their place.  The same
    goes for every list given as first argument, whatever follows it,
    and for a generator such as [model.parameters()].  [state_dict()]
    is under ["state"] all the same. *)
Theorem optimizer_parameter_list_saved :
  (∃ d, serialize (VObj MyAdam (Some (VTuple [VList [weight; bias]; lr]))
                        (Some (VDict [])) adam_state []) = Ok (VDict d)
        ∧ dict_get "args" d = Some (VTuple [VList [weight; bias]; lr])
        ∧ dict_get "args" d ≠ Some (VList [VList []; lr])
        ∧ dict_get "state" d = Some adam_state)
  ∧ (∀ ps others kwargs state,
       ∃ d, serialize (VObj MyAdam (Some (VTuple (VList ps :: others)))
                            kwargs state []) = Ok (VDict d)
            ∧ dict_get "args" d = Some (VTuple (VList ps :: others))
            ∧ dict_get "state" d = Some state)
  ∧ (∀ handle others kwargs state,
       ∃ d, serialize (VObj MyAdam
                         (Some (VTuple (VLeaf (LOpaque "generator" handle)
                                        :: others)))
                         kwargs state []) = Ok (VDict d)
            ∧ dict_get "args" d
              = Some (VTuple (VLeaf (LOpaque "generator" handle) :: others))
            ∧ dict_get "state" d = Some state).
Proof.
  assert (Hchain : serialize_chain MyAdam = [SerOptimizer; SerLoadableMixin])
    by reflexivity.
  split_and!.
  - eexists. split; [reflexivity|]. split_and!; [done|discriminate|done].
  - intros ps others kwargs state. cbn [serialize]. rewrite Hchain.
    cbn [run_serialize]. unfold LoadableMixin_serialize.
    rewrite LoadableOptimizer_serialize_record.
    cbn [default from_option id strip_params truthy is_nil negb].
    assert (is_parameter_or_tensor (VList ps) = false) as -> by reflexivity.
    cbn [mbind result_bind]. eexists. split; [reflexivity|]. done.
  - intros handle others kwargs state. cbn [serialize]. rewrite Hchain.
    cbn [run_serialize]. unfold LoadableMixin_serialize.
    rewrite LoadableOptimizer_serialize_record.
    cbn [default from_option id strip_params truthy is_nil negb].
    assert (is_parameter_or_tensor (VLeaf (LOpaque "generator" handle))
            = false) as -> by reflexivity.
    cbn [mbind result_bind]. eexists. split; [reflexivity|]. done.
Qed.

(* ================================================================== *)
(** * 15. _nested_serialize                                             *)
(* ================================================================== *)

Lemma mapR_raise {A B} (f : A → result B) (xs : list A) (e : exn) :
  mapR f xs = Raise e → ∃ x, x ∈ xs ∧ f x = Raise e.
Proof.
  induction xs as [|x r IH]; simpl; [done|].
  destruct (f x) as [y|e'] eqn:E; simpl.
  - destruct (mapR f r) as [ys|e'']; simpl; [done|].
    intros [= ->]. destruct IH as (x' & Hx' & Hf); [done|].
    exists x'. split; [by apply elem_of_cons; right|done].
  - intros [= ->]. exists x. split; [by apply elem_of_cons; left|done].
Qed.

Lemma mapR_ok {A B} (f : A → result B) (xs : list A) :
  Forall (λ x, is_ok (f x) = true) xs → is_ok (mapR f xs) = true.
Proof.
  induction 1 as [|x r Hx _ IH]; simpl; [done|].
  destruct (f x); [|done]. simpl. by destruct (mapR f r).
Qed.

Lemma strip_params_raise (args : value) (e : exn) :
  strip_params args = Raise e → raised_by_serialize e.
Proof.
  unfold strip_params, raised_by_serialize.
  destruct (truthy args); [|done].
  destruct args as [x|[|x r]|[|x r]|kvs|c a k st ms];
    try destruct (is_parameter_or_tensor x); intros [= <-]; auto.
Qed.

Lemma LoadableOptimizer_serialize_raise (super : result value) (st : value)
    (e : exn) :
  (∀ e', super = Raise e' → raised_by_serialize e') →
  LoadableOptimizer_serialize super st = Raise e → raised_by_serialize e.
Proof.
  intros Hsuper. unfold LoadableOptimizer_serialize.
  destruct super as [v|e']; simpl; [|intros [= <-]; by apply Hsuper].
  destruct v; try (intros [= <-]; unfold raised_by_serialize; by auto).
  match goal with
  | |- context [strip_params ?a] => destruct (strip_params a) eqn:E
  end; simpl; [done|].
  intros [= <-]. by eapply strip_params_raise.
Qed.

Lemma run_serialize_raise (chain : list ser_impl) (cls : pyclass)
    (a k : option value) (st : value) (kids : result (list (string * value)))
    (e : exn) :
  (∀ e', kids = Raise e' → raised_by_serialize e') →
  run_serialize chain cls a k st kids = Raise e → raised_by_serialize e.
Proof.
  intros Hkids. revert e.
  induction chain as [|impl rest IH]; intros e; simpl.
  - intros [= <-]. unfold raised_by_serialize. auto.
  - destruct impl; try done;
      try (destruct kids as [ks|e']; simpl; [done|];
           intros [= <-]; by apply Hkids).
    apply LoadableOptimizer_serialize_raise. intros e'. apply IH.
Qed.

(** [serialize] on an object, with the comprehension over the children
    written as [mapR]. *)
Lemma serialize_VObj (c : pyclass) (a k : option value) (st : value)
    (ms : list (string * value)) :
  serialize (VObj c a k st ms)
  = run_serialize (serialize_chain c) c a k st
      (mapR (λ nm, x ← serialize nm.2; Ok (nm.1, x)) ms).
Proof.
  cbn [serialize]. f_equal.
  induction ms as [|[n m] r IH]; [done|].
  cbn [mapR fst snd]. destruct (serialize m); [|done].
  cbn [mbind result_bind]. fold (@mapR (string * value) (string * value)).
  by rewrite IH.
Qed.

(** [serialize] raises none but its own exceptions. *)
Lemma serialize_raise (v : value) (e : exn) :
  serialize v = Raise e → raised_by_serialize e.
Proof.
  revert e. induction v as [x|xs _|xs _|kvs _|c a k st ms _ _ _ IH]
    using value_ind'; intros e;
    try (intros [= <-]; unfold raised_by_serialize; by auto).
  rewrite serialize_VObj. apply run_serialize_raise. clear e.
  intros e He. apply mapR_raise in He as ([n m] & Hin & He).
  rewrite Forall_forall in IH. specialize (IH _ Hin). simpl in *.
  destruct (serialize m) as [x|e'] eqn:Em; simpl in He; [done|].
  injection He as <-. by apply IH.
Qed.


(** The equations of [_nested_serialize] on a value that is not an
    [nn.Module]. *)
Lemma _nested_serialize_non_module (obj : value) :
  isinstance obj nn_Module = false →
  _nested_serialize obj
  = match obj with
    | VList xs => VList <$> mapR _nested_serialize xs
    | VTuple xs => VTuple <$> mapR _nested_serialize xs
    | VDict kvs =>
        VDict <$> mapR (λ kv, v ← _nested_serialize kv.2; Ok (kv.1, v)) kvs
    | _ => Ok obj
    end.
Proof. intros H. destruct obj; cbn [_nested_serialize]; by rewrite H. Qed.

Lemma fmap_raise {A B} (f : A → B) (r : result A) (e : exn) :
  f <$> r = Raise e → r = Raise e.
Proof. destruct r; simpl; [done|]. by intros [= ->]. Qed.

Lemma Raise_inj {A} (e e' : exn) : @Raise A e = Raise e' → e = e'.
Proof. by intros [= ->]. Qed.

Lemma _nested_serialize_module (obj : value) :
  isinstance obj nn_Module = true →
  _nested_serialize obj
  = if negb (isinstance obj LoadableMixin)
    then Raise (conformance_error (type_of obj))
    else serialize obj.
Proof. intros H. destruct obj; cbn [_nested_serialize]; by rewrite H. Qed.




(* ================================================================== *)
(** * 16. Argument capture                                              *)
(* ================================================================== *)

Lemma keeps_capture_refl (s : instance) : keeps_capture s s.
Proof. by split. Qed.

Lemma keeps_capture_trans (s1 s2 s3 : instance) :
  keeps_capture s1 s2 → keeps_capture s2 s3 → keeps_capture s1 s3.
Proof.
  intros [Hc1 H1] [Hc2 H2]. split; [congruence|].
  intros Hs. destruct (H1 Hs) as (Ea & Ek & En).
  destruct H2 as (Ea' & Ek' & En'); [congruence|].
  split_and!; congruence.
Qed.

Lemma M_bind_unfold {A B} (m : M A) (f : A → M B) (s : instance) :
  (m ≫= f) s
  = match m s with
    | (Ok a, s') => f a s'
    | (Raise e, s') => (Raise e, s')
    end.
Proof. reflexivity. Qed.

Lemma frame_bind {A B} (m : M A) (f : A → M B) :
  frame m → (∀ a, frame (f a)) → frame (m ≫= f).
Proof.
  intros Hm Hf s. rewrite M_bind_unfold. specialize (Hm s).
  destruct (m s) as [[a|e] s']; simpl in *; [|done].
  eapply keeps_capture_trans; [done|apply Hf].
Qed.

Lemma frame_ret {A} (a : A) : frame (mret a : M A).
Proof. intros s. apply keeps_capture_refl. Qed.

Lemma frame_liftR {A} (r : result A) : frame (liftR r).
Proof. intros s. apply keeps_capture_refl. Qed.

Lemma frame_get_self_bind {B} (f : instance → M B) :
  (∀ s, keeps_capture s (f s s).2) → frame (get_self ≫= f).
Proof. intros H s. rewrite M_bind_unfold. simpl. apply H. Qed.

Lemma keeps_capture_set_attrs (a : attrs) (s : instance) :
  keeps_capture s (set_attrs a s).
Proof. by split. Qed.

Section Capture.
Context {R : Runtime}.

Lemma frame_external_init (id : nat) (super : initializer)
    (args : list value) (kwargs : list (string * value)) :
  (∀ a k, frame (super a k)) → frame (external_init id super args kwargs).
Proof.
  intros Hsuper. unfold external_init.
  apply frame_get_self_bind. intros s.
  rewrite M_bind_unfold. unfold liftR.
  destruct (lift_ext (ext_init_pre id args kwargs (attrs_of s)))
    as [pre|e]; [|apply keeps_capture_refl].
  rewrite M_bind_unfold. unfold put_self at 1.
  eapply keeps_capture_trans; [apply (keeps_capture_set_attrs pre.1)|].
  apply frame_bind.
  { destruct pre.2; [apply Hsuper|apply frame_ret]. }
  intros _. apply frame_get_self_bind. intros s'.
  rewrite M_bind_unfold. unfold liftR.
  destruct (lift_ext (ext_init_post id args kwargs (attrs_of s')))
    as [post|e]; [|apply keeps_capture_refl].
  apply keeps_capture_set_attrs.
Qed.

(** The wrapper of [save_args] leaves an existing capture record
    alone, whatever arguments it is called with. *)
Lemma frame_save_args (init : initializer) (args : list value)
    (kwargs : list (string * value)) :
  (∀ a k, frame (init a k)) → frame (save_args init args kwargs).
Proof.
  intros Hinit. unfold save_args.
  apply frame_get_self_bind. intros s.
  unfold hasattr_args. destruct (i_args s) as [x|] eqn:Ex; cbn [negb].
  { apply frame_bind; [apply frame_ret|intros _; apply Hinit]. }
  split; [|congruence].
  cbv [mbind M_bind liftR set__args set__kwargs get_self mret M_ret].
  destruct (_nested_serialize (VTuple args)); [|done].
  destruct (_nested_serialize (VDict kwargs)); [|done].
  match goal with
  | |- i_class (init args kwargs ?s').2 = _ =>
      by destruct (Hinit args kwargs s') as [-> _]
  end.
Qed.

Lemma frame_run_init (chain : list init_impl) :
  ∀ args kwargs, frame (run_init chain args kwargs).
Proof.
  induction chain as [|impl rest IH]; intros args kwargs.
  { apply frame_ret. }
  cbn [run_init]. destruct impl as [| | | |wrapped n id].
  - by apply frame_save_args.
  - unfold LoadableSequential_init.
    apply frame_bind; [apply frame_liftR|intros _].
    apply frame_bind; [apply IH|intros _].
    apply frame_get_self_bind. intros s. apply keeps_capture_refl.
  - unfold LoadableModuleList_init.
    apply frame_bind; [apply frame_liftR|intros m].
    apply frame_bind; [apply IH|intros _].
    apply frame_get_self_bind. intros s. apply keeps_capture_refl.
  - unfold LoadableModuleDict_init.
    apply frame_bind; [apply frame_liftR|intros m].
    apply frame_bind; [apply IH|intros _].
    apply frame_get_self_bind. intros s. apply keeps_capture_refl.
  - destruct wrapped.
    + apply frame_save_args. intros a k. by apply frame_external_init.
    + by apply frame_external_init.
Qed.

(** The first decorated initialiser to run on a fresh instance stores
    the snapshot of its own arguments. *)
Lemma save_args_captures (init : initializer) (args : list value)
    (kwargs : list (string * value)) (a k : value) (s : instance) :
  (∀ a k, frame (init a k)) →
  i_args s = None →
  _nested_serialize (VTuple args) = Ok a →
  _nested_serialize (VDict kwargs) = Ok k →
  let s' := (save_args init args kwargs s).2 in
  i_class s' = i_class s ∧ i_args s' = Some a ∧ i_kwargs s' = Some k
  ∧ i_captures s' = S (i_captures s).
Proof.
  intros Hinit Hs Ha Hk. unfold save_args, hasattr_args.
  cbv [mbind M_bind liftR set__args set__kwargs get_self mret M_ret].
  rewrite Hs. cbn [negb]. rewrite Ha, Hk.
  match goal with
  | |- context [init args kwargs ?s1] =>
      destruct (Hinit args kwargs s1) as [Hc Hkeep]
  end.
  destruct Hkeep as (E1 & E2 & E3); [done|].
  cbv zeta. rewrite Hc, E1, E2, E3. done.
Qed.

(** C2.  Take any chain of initialisers that starts with [N >= 1]
    decorated ones ([layers]) and ends in any others ([base]), and run
    it on a fresh instance with arguments whose snapshot exists.  When
    the chain is over, normally or by an exception of an ancestor, the
    assignment [self._args = ...] has run exactly once and
    [_args]/[_kwargs] hold the snapshot of the arguments of the leaf,
    whatever each initialiser passed on to [super().__init__]. *)
Theorem exactly_once_capture (layers base : list init_impl)
    (cls : pyclass) (args : list value) (kwargs : list (string * value))
    (a k : value) :
  0 < length layers →
  Forall (λ l, is_wrapped l = true) layers →
  _nested_serialize (VTuple args) = Ok a →
  _nested_serialize (VDict kwargs) = Ok k →
  let self := (run_init (layers ++ base) args kwargs (blank cls)).2 in
  i_class self = cls
  ∧ i_args self = Some a
  ∧ i_kwargs self = Some k
  ∧ i_captures self = 1.
Proof.
  intros Hlen Hwrapped Ha Hk.
  destruct layers as [|leaf rest]; [simpl in Hlen; lia|].
  apply Forall_cons in Hwrapped as [Hleaf _].
  cbn [app run_init].
  destruct leaf as [| | | |wrapped n id]; try done.
  - apply (save_args_captures _ args kwargs a k (blank cls)); try done.
    intros a' k'. apply frame_run_init.
  - simpl in Hleaf. subst wrapped.
    apply (save_args_captures _ args kwargs a k (blank cls)); try done.
    intros a' k'. apply frame_external_init. apply frame_run_init.
Qed.
End Capture.

Lemma exactly_once_capture_witness :
  init_chain Leaf
  = ([InitExternal true 2 id_Leaf; InitExternal true 1 id_Mid]
     ++ [InitExternal false 2 id_nn_Module; InitExternal false 2 id_object])%list
  ∧ @construct chain_runtime Leaf [VLeaf (LInt 3); VLeaf (LInt 5)] []
    = Ok (VObj Leaf (Some (VTuple [VLeaf (LInt 3); VLeaf (LInt 5)]))
               (Some (VDict [])) (VDict []) [])
  ∧ i_captures
      (@run_init chain_runtime (init_chain Leaf)
         [VLeaf (LInt 3); VLeaf (LInt 5)] [] (blank Leaf)).2 = 1.
Proof.
  split; [reflexivity|]. split; [reflexivity|].
  apply (@exactly_once_capture chain_runtime
           [InitExternal true 2 id_Leaf; InitExternal true 1 id_Mid]
           [InitExternal false 2 id_nn_Module; InitExternal false 2 id_object]
           Leaf [VLeaf (LInt 3); VLeaf (LInt 5)] []
           (VTuple [VLeaf (LInt 3); VLeaf (LInt 5)]) (VDict [])).
  - simpl. lia.
  - repeat constructor.
  - reflexivity.
  - reflexivity.
Defined.

(* ================================================================== *)
(** * 17. _nested_unserialize                                           *)
(* ================================================================== *)

Lemma dict_has_set_eq (key : string) (v : value) (d : list (string * value)) :
  dict_has key (dict_set key v d) = true.
Proof. unfold dict_has. by rewrite dict_get_set_eq. Qed.

Lemma dict_has_set_ne (key key' : string) (v : value)
    (d : list (string * value)) :
  key ≠ key' → dict_has key' (dict_set key v d) = dict_has key' d.
Proof. intros H. unfold dict_has. by rewrite dict_get_set_ne. Qed.

Lemma getitem_set_ne (key key' : string) (v : value)
    (d : list (string * value)) :
  key ≠ key' → getitem key' (dict_set key v d) = getitem key' d.
Proof. intros H. unfold getitem. by rewrite dict_get_set_ne. Qed.

Section Unserialize.
Context {R : Runtime}.

Lemma sub_get_sub_of (key : string) (kvs : list (string * value)) :
  sub_get key (sub_of kvs)
  = (x ← getitem key kvs; _nested_unserialize x None).
Proof.
  unfold sub_get, sub_of, getitem.
  induction kvs as [|[k v] r IH]; [done|].
  cbn [fmap list_fmap List.find dict_get fst snd].
  destruct (String.eqb k key); [done|]. apply IH.
Qed.

Lemma _nested_unserialize_VDict (kvs : list (string * value))
    (klass : option pyclass) :
  _nested_unserialize (VDict kvs) klass
  = if dict_has tag_key kvs
    then unserialize_record kvs (sub_of kvs) klass
    else VDict <$> mapR (λ kr : string * result value,
                           v ← kr.2; Ok (kr.1, v)) (sub_of kvs).
Proof.
  cbn [_nested_unserialize].
  assert (E : (fix go (kvs : list (string * value))
                 : list (string * result value) :=
                 match kvs with
                 | [] => []
                 | (key, v) :: r => (key, _nested_unserialize v None) :: go r
                 end) kvs = sub_of kvs).
  { unfold sub_of. induction kvs as [|[k v] r IH]; [done|].
    cbn [fmap list_fmap fst snd]. by rewrite IH. }
  by rewrite E.
Qed.

(** The tagged branch in the shape of lines 185-209. *)
Lemma _nested_unserialize_record (state : list (string * value))
    (klass : option pyclass) :
  dict_has tag_key state = true →
  _nested_unserialize (VDict state) klass
  = (klass ← match klass with
             | None => resolve state
             | Some k => Ok k
             end;
     klass ← (if negb (isinstance_class klass LoadableMixin)
              then make_loadable klass
              else Ok klass);
     args ← (x ← getitem "args" state; _nested_unserialize x None);
     kwargs ← (x ← getitem "kwargs" state; _nested_unserialize x None);
     a ← star_args args;
     k ← star_kwargs kwargs;
     obj ← construct klass a k;
     if dict_has "state" state then
       st ← getitem "state" state;
       load_state_dict obj st
     else Ok obj).
Proof.
  intros Htag. rewrite _nested_unserialize_VDict, Htag.
  unfold unserialize_record. by rewrite !sub_get_sub_of.
Qed.

(** C3 (amended).  The value stored under ["cassetta.Loadable"] is
    never looked at: putting any other value there changes nothing in
    what [_nested_unserialize] and [load] return, object or exception,
    with or without a class hint. *)
Theorem version_value_ignored (state : list (string * value))
    (version : value) (klass : option pyclass) (cls : pyclass) :
  dict_has tag_key state = true →
  _nested_unserialize (VDict (dict_set tag_key version state)) klass
  = _nested_unserialize (VDict state) klass
  ∧ load cls (VDict (dict_set tag_key version state))
    = load cls (VDict state).
Proof.
  intros Htag.
  assert (E : _nested_unserialize (VDict (dict_set tag_key version state))
                klass = _nested_unserialize (VDict state) klass
              ∧ ∀ h, _nested_unserialize
                       (VDict (dict_set tag_key version state)) h
                     = _nested_unserialize (VDict state) h).
  { assert (∀ h, _nested_unserialize
                   (VDict (dict_set tag_key version state)) h
                 = _nested_unserialize (VDict state) h); [|by split].
    intros h.
    rewrite !_nested_unserialize_record
      by (done || apply dict_has_set_eq).
    unfold resolve.
    rewrite !getitem_set_ne, !dict_has_set_ne, !dict_get_set_ne by done.
    done. }
  destruct E as [E1 E2]. split; [done|].
  assert (Hd : ∀ d, isinstance (VDict d) py_dict = true) by reflexivity.
  unfold load. rewrite !Hd. cbn [negb mbind result_bind]. by rewrite E2.
Qed.
End Unserialize.

Lemma version_value_ignored_witness :
  @_nested_unserialize (Torch.runtime [])
     (VDict (dict_set tag_key (str "0.9")
               (dict_set tag_key (str __version__) stale_record))) None
  = @_nested_unserialize (Torch.runtime [])
      (VDict (dict_set tag_key (str __version__) stale_record)) None.
Proof.
  apply (@version_value_ignored (Torch.runtime [])
           (dict_set tag_key (str __version__) stale_record) (str "0.9")
           None LoadableMixin).
  reflexivity.
Defined.

(** C3 (counterexample).  The record of a [LoadableModule()] without
    parameters, stamped ["0.9"] while the engine supports ["1.0"],
    loads: a module is built from it and its (empty) state is accepted
    by the strict [load_state_dict]. *)
Lemma version_gate_counterexample : ¬ version_gate (Torch.runtime []).
Proof.
  intros H. specialize (H outdated_record (str "0.9") eq_refl).
  assert (Hne : str "0.9" ≠ str __version__) by discriminate.
  specialize (H Hne). vm_compute in H. discriminate.
Qed.

Lemma outdated_record_loads :
  @load_module (Torch.runtime []) (VDict outdated_record)
  = Ok (VObj (DynamicModule LoadableModule) (Some (VTuple []))
             (Some (VDict [])) (VDict []) []).
Proof. reflexivity. Qed.

(** A record whose state names a parameter the module built does not
    have is rejected by [load_state_dict], whatever its version. *)
Lemma stale_record_rejected :
  @load_module (Torch.runtime []) (VDict stale_record)
  = Raise (External "RuntimeError: Error(s) in loading state_dict")
  ∧ @load_module (Torch.runtime [])
      (VDict (dict_set tag_key (str __version__) stale_record))
    = Raise (External "RuntimeError: Error(s) in loading state_dict").
Proof. split; reflexivity. Qed.

(** ** What deserialization builds *)

Lemma result_bind_ok {A B} (m : result A) (f : A → result B) (b : B) :
  m ≫= f = Ok b → ∃ a, m = Ok a ∧ f a = Ok b.
Proof. destruct m as [a|e]; [|done]. intros H. by exists a. Qed.

Lemma isinstance_class_LoadableMixin (k : pyclass) :
  isinstance_class k LoadableMixin = false.
Proof. reflexivity. Qed.

Lemma make_loadable_ok (k c : pyclass) :
  make_loadable k = Ok c → c = DynamicModule k ∧ is_Some (mro c).
Proof.
  unfold make_loadable. destruct (mro (DynamicModule k)) eqn:E; [|done].
  intros [= <-]. rewrite E. eauto.
Qed.

(** The linearisation of a class built by [make_loadable]. *)
Lemma mro_DynamicModule_unfold (K : pyclass) (l : list pyclass) :
  mro (DynamicModule K) = Some l →
  ∃ lk r,
    mro K = Some lk
    ∧ l = DynamicModule K :: r
    ∧ ∀ x, x ∈ [DynamicLoadableMixin; LoadableMixin; py_object]
           ∨ x ∈ lk ∨ x ∈ [DynamicLoadableMixin; K] → x ∈ r.
Proof.
  intros Hl. rewrite mro_unfold in Hl.
  change (k_bases (DynamicModule K)) with [DynamicLoadableMixin; K] in Hl.
  apply bind_Some in Hl as (ls & Hls & Hl).
  apply bind_Some in Hl as (r & Hr & [= <-]).
  apply mapM_Some in Hls.
  apply Forall2_cons_inv_l in Hls as (l1 & ls1 & H1 & Hls & ->).
  apply Forall2_cons_inv_l in Hls as (lk & ls2 & HK & Hls & ->).
  apply Forall2_nil_inv_l in Hls as ->.
  rewrite mro_DynamicLoadableMixin in H1. injection H1 as <-.
  exists lk, r. split_and!; [done|done|].
  intros x Hx. destruct Hx as [Hx|[Hx|Hx]].
  - eapply (c3_merge_complete _ _ _ Hr); [|exact Hx].
    apply elem_of_cons; by left.
  - eapply (c3_merge_complete _ _ _ Hr); [|exact Hx].
    apply elem_of_cons; right. apply elem_of_cons; by left.
  - eapply (c3_merge_complete _ _ _ Hr); [|exact Hx].
    apply elem_of_cons; right. apply elem_of_cons; right.
    apply elem_of_cons; by left.
Qed.

Lemma issubclass_DynamicModule (K c base : pyclass) :
  make_loadable K = Ok c →
  base = K ∨ base = LoadableMixin ∨ base = DynamicLoadableMixin
  ∨ issubclass K base = true →
  issubclass c base = true.
Proof.
  intros Hc Hbase. apply make_loadable_ok in Hc as [-> [l Hl]].
  destruct (mro_DynamicModule_unfold K l Hl) as (lk & r & HK & -> & Hin).
  unfold issubclass. rewrite Hl. apply klass_in_In.
  apply elem_of_cons; right. apply Hin.
  destruct Hbase as [->|[->|[->|Hsub]]].
  - right; right. apply elem_of_cons; right. apply elem_of_cons; by left.
  - left. apply elem_of_cons; right. apply elem_of_cons; by left.
  - left. apply elem_of_cons; by left.
  - right; left. unfold issubclass in Hsub. rewrite HK in Hsub.
    by apply klass_in_In.
Qed.

Section Wraps.
Context {R : Runtime}.

Lemma construct_class (cls : pyclass) (a : list value)
    (k : list (string * value)) (v : value) :
  construct cls a k = Ok v → type_of v = cls.
Proof.
  unfold construct.
  pose proof (frame_run_init (init_chain cls) a k (blank cls)) as [Hc _].
  destruct (run_init _ _ _ _) as [[u|e] s]; [|done].
  intros [= <-]. exact Hc.
Qed.

Lemma load_state_dict_class (obj st v : value) :
  load_state_dict obj st = Ok v → type_of v = type_of obj.
Proof.
  destruct obj as [| | | |c a k s ms]; try done. simpl.
  destruct (lift_ext _); [|done]. by intros [= <-].
Qed.

(** Line 199 tests [isinstance(klass, LoadableMixin)] on the class
    object, which never holds: whatever class was resolved or hinted,
    the object is an instance of a fresh wrapper around it. *)
Lemma unserialize_always_wraps (state : list (string * value))
    (klass : option pyclass) (v : value) :
  dict_has tag_key state = true →
  _nested_unserialize (VDict state) klass = Ok v →
  ∃ k, type_of v = DynamicModule k
       ∧ match klass with
         | Some h => k = h
         | None => resolve state = Ok k
         end.
Proof.
  intros Htag. rewrite _nested_unserialize_record by done.
  intros H.
  assert (∃ k, match klass with
               | Some h => k = h
               | None => resolve state = Ok k
               end
               ∧ (klass ← make_loadable k;
                  args ← (x ← getitem "args" state;
                          _nested_unserialize x None);
                  kwargs ← (x ← getitem "kwargs" state;
                            _nested_unserialize x None);
                  a ← star_args args;
                  k ← star_kwargs kwargs;
                  obj ← construct klass a k;
                  if dict_has "state" state then
                    st ← getitem "state" state;
                    load_state_dict obj st
                  else Ok obj) = Ok v) as (k & Hk & H').
  { destruct klass as [h|]; [by exists h|].
    destruct (resolve state) as [k|]; [by exists k|done]. }
  clear H. exists k. split; [|done].
  destruct (make_loadable k) as [c|] eqn:Ec; [|done].
  apply make_loadable_ok in Ec as [-> _].
  cbn [mbind result_bind] in H'.
  apply result_bind_ok in H' as (args & _ & H').
  apply result_bind_ok in H' as (kwargs & _ & H').
  apply result_bind_ok in H' as (xs & _ & H').
  apply result_bind_ok in H' as (kws & _ & H').
  apply result_bind_ok in H' as (obj & Eobj & H').
  apply construct_class in Eobj.
  destruct (dict_has "state" state).
  - apply result_bind_ok in H' as (st & _ & H').
    apply load_state_dict_class in H'. congruence.
  - injection H' as <-. done.
Qed.

(** What a successful load of a tagged record went through. *)
Lemma unserialize_record_inv (state : list (string * value))
    (klass : option pyclass) (v : value) :
  dict_has tag_key state = true →
  _nested_unserialize (VDict state) klass = Ok v →
  ∃ k c, match klass with
         | Some h => k = h
         | None => resolve state = Ok k
         end
         ∧ make_loadable k = Ok c
         ∧ type_of v = c.
Proof.
  intros Htag. rewrite _nested_unserialize_record by done.
  intros H. apply result_bind_ok in H as (k & Hk & H).
  rewrite isinstance_class_LoadableMixin in H. cbn [negb] in H.
  apply result_bind_ok in H as (c & Hc & H).
  exists k, c. split; [|split; [done|]].
  { destruct klass as [h|]; [by injection Hk|done]. }
  apply result_bind_ok in H as (args & _ & H).
  apply result_bind_ok in H as (kwargs & _ & H).
  apply result_bind_ok in H as (xs & _ & H).
  apply result_bind_ok in H as (kws & _ & H).
  apply result_bind_ok in H as (obj & Eobj & H).
  apply construct_class in Eobj.
  destruct (dict_has "state" state).
  - apply result_bind_ok in H as (st & _ & H).
    apply load_state_dict_class in H. congruence.
  - by injection H as <-.
Qed.

End Wraps.

(** C1 (the code at the failing input).  A [LoadableModule()], which
    has no parameters and no buffers, is serialized and read back: the
    record is resolved to [LoadableModule] and its empty state is
    accepted, yet the object built is an instance of the generated
    class [LoadableLoadableModule], not of [LoadableModule].  The
    captured arguments and the state are those of the original. *)
Theorem round_trip_changes_type :
  ∃ r v,
    serialize loadable_module = Ok r
    ∧ @_nested_unserialize (Torch.runtime []) r None = Ok v
    ∧ type_of loadable_module = LoadableModule
    ∧ type_of v = DynamicModule LoadableModule
    ∧ k_qualname (type_of v) = "LoadableLoadableModule"
    ∧ type_of v ≠ type_of loadable_module
    ∧ v = VObj (DynamicModule LoadableModule) (Some (VTuple []))
               (Some (VDict [])) (VDict []) [].
Proof.
  eexists _, _. split; [reflexivity|]. split; [reflexivity|].
  split_and!; try reflexivity. discriminate.
Qed.

(** For a container the change of type shows in the next record: the
    container read back serializes under the name of its generated
    class, which cannot be imported. *)
Lemma pipeline_second_trip_fails :
  ∃ r1 v1 r2,
    serialize bare_pipeline = Ok r1
    ∧ @_nested_unserialize (Torch.runtime []) r1 None = Ok v1
    ∧ serialize v1 = Ok r2
    ∧ (∃ d1, r1 = VDict d1
             ∧ dict_get "qualname" d1 = Some (str "LoadableSequential"))
    ∧ (∃ d2, r2 = VDict d2
             ∧ dict_get "qualname" d2
               = Some (str "LoadableLoadableSequential"))
    ∧ @_nested_unserialize (Torch.runtime []) r2 None
      = Raise (ImportError "Could not import type"
                 (str "LoadableLoadableSequential") "from module"
                 (str this_module)).
Proof.
  eexists _, _, _. split; [reflexivity|]. split; [reflexivity|].
  split; [reflexivity|]. split_and!.
  - eexists. split; reflexivity.
  - eexists. split; reflexivity.
  - reflexivity.
Qed.

(** A module that was given a parameter after its construction (here
    [trained_module]) does not come back at all: the module built from
    its record has none, and the strict [load_state_dict] refuses the
    state. *)
Lemma trained_module_round_trip_rejected :
  ∃ r, serialize trained_module = Ok r
       ∧ @_nested_unserialize (Torch.runtime []) r None
         = Raise (External "RuntimeError: Error(s) in loading state_dict").
Proof. eexists. split; reflexivity. Qed.

(* ================================================================== *)
(** * 18. make_loadable and the tag of a wrapped class                  *)
(* ================================================================== *)

Lemma LoadableMixin_serialize_DynamicModule (K : pyclass)
    (a k : option value) (st : value) :
  LoadableMixin_serialize (DynamicModule K) a k st = record_of K a k st.
Proof.
  unfold LoadableMixin_serialize, record_of.
  change (k_bases (DynamicModule K)) with [DynamicLoadableMixin; K].
  assert (klass_in DynamicLoadableMixin [DynamicLoadableMixin; K] = true)
    as ->.
  { apply klass_in_In, elem_of_cons. by left. }
  reflexivity.
Qed.

(** C8 (amended).  Let [c] be [make_loadable(K)] where [K] is outside
    the [LoadableMixin] family, or more generally where [serialize]
    resolves on [c] to [LoadableMixin.serialize].  Every instance of
    [c] serializes to the record carrying [K.__module__] and
    [K.__qualname__]: the names of the wrapper do not appear. *)
Theorem make_loadable_tags_original (K c : pyclass) (a k : option value)
    (st : value) (ms : list (string * value)) :
  make_loadable K = Ok c →
  issubclass K LoadableMixin = false
  ∨ head (serialize_chain c) = Some SerLoadableMixin →
  serialize (VObj c a k st ms) = Ok (record_of K a k st).
Proof.
  intros Hc Hres. apply make_loadable_ok in Hc as [-> [l Hl]].
  assert (Hhead : head (serialize_chain (DynamicModule K))
                  = Some SerLoadableMixin).
  { destruct Hres as [Hsub|H]; [|done].
    destruct (mro_DynamicModule K l Hl Hsub) as [rest ->].
    unfold serialize_chain. rewrite Hl. reflexivity. }
  rewrite serialize_VObj.
  destruct (serialize_chain (DynamicModule K)) as [|impl chain]; [done|].
  injection Hhead as ->. cbn [run_serialize].
  by rewrite LoadableMixin_serialize_DynamicModule.
Qed.

Lemma make_loadable_tags_original_witness :
  serialize (VObj (DynamicModule nn_Linear)
                  (Some (VTuple [VLeaf (LInt 1); VLeaf (LInt 16)]))
                  (Some (VDict [])) (VDict [("weight", weight)]) [])
  = Ok (VDict [ (tag_key, str "1.0");
                ("module", str "torch.nn.modules.linear");
                ("qualname", str "Linear");
                ("args", VTuple [VLeaf (LInt 1); VLeaf (LInt 16)]);
                ("kwargs", VDict []);
                ("state", VDict [("weight", weight)]) ]).
Proof.
  apply (make_loadable_tags_original nn_Linear (DynamicModule nn_Linear)).
  - reflexivity.
  - left. reflexivity.
Defined.

(** C8 (counterexample).  [LoadableSequential] is an [nn.Module]
    subclass; an instance of [make_loadable(LoadableSequential)]
    serializes through [LoadableSequential.serialize], which tags the
    record with [type(self)], the generated class. *)
Lemma wrapper_tags_original_counterexample :
  issubclass LoadableSequential nn_Module = true
  ∧ ¬ wrapper_tags_original LoadableSequential.
Proof.
  split; [reflexivity|]. intros H.
  destruct (H (DynamicModule LoadableSequential) None None (VDict []) []
              _ eq_refl eq_refl) as [_ Hq].
  vm_compute in Hq. discriminate.
Qed.

(* ================================================================== *)
(** * 19. Class hints                                                   *)
(* ================================================================== *)

Lemma raised_by_serialize_no_import (e : exn) :
  raised_by_serialize e → is_import_error e = false.
Proof. by intros [-> | [-> | [-> | ->]]]. Qed.

(** [_nested_serialize] raises the conformance error or what
    [serialize] raises. *)
Lemma _nested_serialize_raise (obj : value) (e : exn) :
  _nested_serialize obj = Raise e →
  raised_by_serialize e ∨ ∃ cls, e = conformance_error cls.
Proof.
  revert e.
  induction obj as [x|xs IH|xs IH|kvs IH|c a k st ms _ _ _ _]
    using value_ind'; intros e H.
  all: match type of H with
       | _nested_serialize ?o = _ =>
           destruct (isinstance o nn_Module) eqn:Hmod;
           [ rewrite _nested_serialize_module in H by done;
             destruct (isinstance o LoadableMixin) eqn:Hload;
             cbn [negb] in H;
             [ left; by apply serialize_raise in H
             | right; apply Raise_inj in H; by eexists ]
           | rewrite _nested_serialize_non_module in H by done ]
       end.
  all: try done.
  - apply fmap_raise, mapR_raise in H as (y & Hy & H).
    rewrite Forall_forall in IH. by apply (IH y Hy).
  - apply fmap_raise, mapR_raise in H as (y & Hy & H).
    rewrite Forall_forall in IH. by apply (IH y Hy).
  - apply fmap_raise, mapR_raise in H as (kv & Hkv & H).
    rewrite Forall_forall in IH.
    destruct (_nested_serialize kv.2) as [v|e'] eqn:E; simpl in H; [done|].
    injection H as ->. by apply (IH kv Hkv).
Qed.

Lemma _nested_serialize_no_import (obj : value) (e : exn) :
  _nested_serialize obj = Raise e → is_import_error e = false.
Proof.
  intros H. apply _nested_serialize_raise in H as [H|[cls ->]]; [|done].
  by apply raised_by_serialize_no_import.
Qed.

Lemma no_import_bind {A B} (m : M A) (f : A → M B) :
  no_import m → (∀ a, no_import (f a)) → no_import (m ≫= f).
Proof.
  intros Hm Hf s e. rewrite M_bind_unfold. specialize (Hm s).
  destruct (m s) as [[a|e'] s']; simpl in *; [apply Hf|].
  intros [= <-]. by apply Hm.
Qed.

Lemma no_import_ret {A} (a : A) : no_import (mret a : M A).
Proof. by intros s e. Qed.

Lemma no_import_liftR {A} (r : result A) :
  (∀ e, r = Raise e → is_import_error e = false) → no_import (liftR r).
Proof. intros H s e. apply H. Qed.

Lemma no_import_get_self : no_import get_self.
Proof. by intros s e. Qed.

Lemma no_import_put_self (s' : instance) : no_import (put_self s').
Proof. by intros s e. Qed.

Lemma lift_ext_no_import {A} (x : ext A) (e : exn) :
  lift_ext x = Raise e → is_import_error e = false.
Proof. destruct x; [done|]. by intros [= <-]. Qed.

Lemma validate_loadable_modules_no_import (ms : list value) (e : exn) :
  validate_loadable_modules ms = Raise e → is_import_error e = false.
Proof.
  induction ms as [|m r IH]; simpl; [done|].
  unfold validate_loadable_module.
  destruct (negb _); simpl; [by intros [= <-]|done].
Qed.

Lemma check_items_no_import (items : list (string * value)) (e : exn) :
  check_items items = Raise e → is_import_error e = false.
Proof.
  induction items as [|[k m] r IH]; simpl; [done|].
  destruct (negb _); [by intros [= <-]|done].
Qed.

Lemma bind_modules_no_import (args : list value)
    (kwargs : list (string * value)) (e : exn) :
  bind_modules args kwargs = Raise e → is_import_error e = false.
Proof.
  unfold bind_modules.
  destruct args as [|? [|? ?]], kwargs as [|[k ?] [|? ?]];
    try destruct (String.eqb k "modules"); try done; by intros [= <-].
Qed.

Lemma bind_star_args_no_import (kwargs : list (string * value)) (e : exn) :
  bind_star_args kwargs = Raise e → is_import_error e = false.
Proof. destruct kwargs as [|[k ?] ?]; [done|]. by intros [= <-]. Qed.

Section Hints.
Context {R : Runtime}.

Lemma no_import_save_args (init : initializer) (args : list value)
    (kwargs : list (string * value)) :
  (∀ a k, no_import (init a k)) → no_import (save_args init args kwargs).
Proof.
  intros Hinit. unfold save_args.
  apply no_import_bind; [apply no_import_get_self|intros self].
  apply no_import_bind; [|intros _; apply Hinit].
  destruct (negb _); [|apply no_import_ret].
  apply no_import_bind;
    [apply no_import_liftR, _nested_serialize_no_import|intros a].
  apply no_import_bind; [by intros s e|intros _].
  apply no_import_bind;
    [apply no_import_liftR, _nested_serialize_no_import|intros k].
  by intros s e.
Qed.

Lemma no_import_external_init (id : nat) (super : initializer)
    (args : list value) (kwargs : list (string * value)) :
  (∀ a k, no_import (super a k)) →
  no_import (external_init id super args kwargs).
Proof.
  intros Hsuper. unfold external_init.
  apply no_import_bind; [apply no_import_get_self|intros self].
  apply no_import_bind;
    [apply no_import_liftR, lift_ext_no_import|intros pre].
  apply no_import_bind; [apply no_import_put_self|intros _].
  apply no_import_bind.
  { destruct pre.2; [apply Hsuper|apply no_import_ret]. }
  intros _.
  apply no_import_bind; [apply no_import_get_self|intros self'].
  apply no_import_bind;
    [apply no_import_liftR, lift_ext_no_import|intros post].
  apply no_import_put_self.
Qed.

Lemma no_import_run_init (chain : list init_impl) :
  ∀ args kwargs, no_import (run_init chain args kwargs).
Proof.
  induction chain as [|impl rest IH]; intros args kwargs.
  { apply no_import_ret. }
  cbn [run_init]. destruct impl as [| | | |wrapped n id].
  - by apply no_import_save_args.
  - unfold LoadableSequential_init.
    apply no_import_bind;
      [apply no_import_liftR, bind_star_args_no_import|intros _].
    apply no_import_bind; [apply IH|intros _].
    apply no_import_bind; [apply no_import_get_self|intros self].
    apply no_import_liftR, validate_loadable_modules_no_import.
  - unfold LoadableModuleList_init.
    apply no_import_bind;
      [apply no_import_liftR, bind_modules_no_import|intros m].
    apply no_import_bind; [apply IH|intros _].
    apply no_import_bind; [apply no_import_get_self|intros self].
    apply no_import_liftR, validate_loadable_modules_no_import.
  - unfold LoadableModuleDict_init.
    apply no_import_bind;
      [apply no_import_liftR, bind_modules_no_import|intros m].
    apply no_import_bind; [apply IH|intros _].
    apply no_import_bind; [apply no_import_get_self|intros self].
    apply no_import_liftR, check_items_no_import.
  - destruct wrapped.
    + apply no_import_save_args. intros a k.
      by apply no_import_external_init.
    + by apply no_import_external_init.
Qed.

Lemma construct_no_import (cls : pyclass) (a : list value)
    (k : list (string * value)) (e : exn) :
  construct cls a k = Raise e → is_import_error e = false.
Proof.
  unfold construct.
  pose proof (no_import_run_init (init_chain cls) a k (blank cls)) as H.
  destruct (run_init _ _ _ _) as [[u|e'] s]; [done|].
  intros [= <-]. by apply H.
Qed.
End Hints.

Lemma result_bind_raise {A B} (m : result A) (f : A → result B) (e : exn) :
  m ≫= f = Raise e → m = Raise e ∨ ∃ a, m = Ok a ∧ f a = Raise e.
Proof.
  destruct m as [a|e']; simpl.
  - intros H. right. by exists a.
  - intros [= ->]. by left.
Qed.

Lemma make_loadable_no_import (k : pyclass) (e : exn) :
  make_loadable k = Raise e → is_import_error e = false.
Proof.
  unfold make_loadable. destruct (mro _); [done|]. by intros [= <-].
Qed.

Section HintTheorem.
Context {R : Runtime}.

Lemma star_args_no_import (v : value) (e : exn) :
  star_args v = Raise e → is_import_error e = false.
Proof. destruct v; try done; apply lift_ext_no_import. Qed.

Lemma star_kwargs_no_import (v : value) (e : exn) :
  star_kwargs v = Raise e → is_import_error e = false.
Proof. destruct v; try done; apply lift_ext_no_import. Qed.

Lemma load_state_dict_no_import (obj st : value) (e : exn) :
  load_state_dict obj st = Raise e → is_import_error e = false.
Proof.
  destruct obj as [| | | |c a k s ms]; try by intros [= <-].
  simpl. destruct (lift_ext _) eqn:E; [done|].
  intros [= <-]. by apply lift_ext_no_import in E.
Qed.

(** With a hint the tagged branch does not call [resolve]. *)
Lemma _nested_unserialize_hinted (state : list (string * value))
    (hint : pyclass) :
  dict_has tag_key state = true →
  _nested_unserialize (VDict state) (Some hint)
  = (klass ← make_loadable hint;
     args ← (x ← getitem "args" state; _nested_unserialize x None);
     kwargs ← (x ← getitem "kwargs" state; _nested_unserialize x None);
     a ← star_args args;
     k ← star_kwargs kwargs;
     obj ← construct klass a k;
     if dict_has "state" state then
       st ← getitem "state" state;
       load_state_dict obj st
     else Ok obj).
Proof. intros Htag. by rewrite _nested_unserialize_record. Qed.

(** C10 (amended).  When a class hint is given for a tagged record,
    the ["module"] and ["qualname"] fields of that record play no
    part: setting them to anything, or adding them when absent, gives
    the same result; [SomeClass.load] passes [SomeClass] as the hint;
    the object, when one is returned, is an instance of the class that
    [make_loadable] builds on the hinted class (bases
    [DynamicLoadableMixin] and the hint), hence of the hint; and an
    [ImportError] can then only come from a record nested in ["args"]
    or ["kwargs"], which is always resolved by name. *)
Theorem hint_skips_resolution (state : list (string * value))
    (hint : pyclass) (m q : value) :
  dict_has tag_key state = true →
  _nested_unserialize
    (VDict (dict_set "module" m (dict_set "qualname" q state))) (Some hint)
  = _nested_unserialize (VDict state) (Some hint)
  ∧ (hint ≠ LoadableMixin →
     load hint (VDict state)
     = _nested_unserialize (VDict state) (Some hint))
  ∧ (∀ v, _nested_unserialize (VDict state) (Some hint) = Ok v →
          make_loadable hint = Ok (type_of v)
          ∧ type_of v = DynamicModule hint
          ∧ k_bases (type_of v) = [DynamicLoadableMixin; hint]
          ∧ isinstance v hint = true)
  ∧ (∀ e, _nested_unserialize (VDict state) (Some hint) = Raise e →
          is_import_error e = true →
          ∃ key x, (key = "args" ∨ key = "kwargs")
                   ∧ dict_get key state = Some x
                   ∧ _nested_unserialize x None = Raise e).
Proof.
  intros Htag. split_and!.
  - rewrite !_nested_unserialize_hinted
      by (done || by rewrite !dict_has_set_ne).
    rewrite !getitem_set_ne, !dict_has_set_ne by done. done.
  - intros Hne. unfold load.
    assert (isinstance (VDict state) py_dict = true) as -> by reflexivity.
    apply klass_eqb_neq in Hne as ->. done.
  - intros v Hv.
    destruct (unserialize_record_inv state (Some hint) v Htag Hv)
      as (k & c & -> & Hc & Ht).
    subst c. pose proof (make_loadable_ok _ _ Hc) as [Hd _].
    split_and!; [done|done|by rewrite Hd|].
    unfold isinstance. apply (issubclass_DynamicModule hint _ hint Hc).
    by left.
  - intros e H Himp. rewrite _nested_unserialize_hinted in H by done.
    apply result_bind_raise in H as [H|(c & _ & H)].
    { apply make_loadable_no_import in H. congruence. }
    apply result_bind_raise in H as [H|(args & _ & H)].
    { apply result_bind_raise in H as [H|(x & Hx & H)].
      - unfold getitem in H. destruct (dict_get "args" state); [done|].
        injection H as <-. done.
      - exists "args", x. split_and!; [by left| |done].
        unfold getitem in Hx. by destruct (dict_get "args" state) as [y|];
          [injection Hx as ->|]. }
    apply result_bind_raise in H as [H|(kwargs & _ & H)].
    { apply result_bind_raise in H as [H|(x & Hx & H)].
      - unfold getitem in H. destruct (dict_get "kwargs" state); [done|].
        injection H as <-. done.
      - exists "kwargs", x. split_and!; [by right| |done].
        unfold getitem in Hx. by destruct (dict_get "kwargs" state) as [y|];
          [injection Hx as ->|]. }
    apply result_bind_raise in H as [H|(a & _ & H)].
    { apply star_args_no_import in H. congruence. }
    apply result_bind_raise in H as [H|(k & _ & H)].
    { apply star_kwargs_no_import in H. congruence. }
    apply result_bind_raise in H as [H|(obj & _ & H)].
    { apply construct_no_import in H. congruence. }
    destruct (dict_has "state" state); [|done].
    apply result_bind_raise in H as [H|(st & _ & H)].
    { unfold getitem in H. destruct (dict_get "state" state); [done|].
      injection H as <-. done. }
    apply load_state_dict_no_import in H. congruence.
Qed.
End HintTheorem.

Lemma hint_skips_resolution_witness :
  @_nested_unserialize (Torch.runtime [])
     (VDict (dict_set "module" (str "nowhere")
               (dict_set "qualname" (str "Missing") outdated_record)))
     (Some LoadableModule)
  = @_nested_unserialize (Torch.runtime []) (VDict outdated_record)
      (Some LoadableModule)
  ∧ @_nested_unserialize (Torch.runtime []) (VDict outdated_record)
      (Some LoadableModule)
    = Ok (VObj (DynamicModule LoadableModule) (Some (VTuple []))
               (Some (VDict [])) (VDict []) []).
Proof.
  split; [|reflexivity].
  exact (proj1 (@hint_skips_resolution (Torch.runtime []) outdated_record
                  LoadableModule (str "nowhere") (str "Missing") eq_refl)).
Defined.

(** C10 (counterexample).  [LoadableModule.load] on a record whose
    argument is the record of a type that cannot be imported: the hint
    covers the outer record only, and the load raises [ImportError]. *)
Lemma hint_import_error_counterexample :
  ¬ hint_excludes_import_errors (Torch.runtime []).
Proof.
  intros H.
  specialize (H outer_record LoadableModule
                (ImportError "Could not import type" (str "Missing")
                   "from module" (str "nowhere")) eq_refl eq_refl).
  discriminate.
Qed.

Lemma hinted_load_raises_import_error :
  @load (Torch.runtime []) LoadableModule (VDict outer_record)
  = Raise (ImportError "Could not import type" (str "Missing")
             "from module" (str "nowhere")).
Proof. reflexivity. Qed.

(* ================================================================== *)
(** * 20. Snapshots and aliasing                                        *)
(* ================================================================== *)

#[local] Close Scope string_scope.

(** Reading is stable under allocation. *)
Lemma read_app (n : nat) (h e : Store.heap) (v : Store.rvalue)
    (t : Store.tree) :
  Store.read n h v = Some t → Store.read n (h ++ e) v = Some t.
Proof.
  revert v t. induction n as [|n IH]; intros v t; [done|].
  destruct v as [x|a]; [done|]. cbn [Store.read].
  destruct (h !! a) as [c|] eqn:Ea; [|done].
  rewrite (lookup_app_l_Some _ _ _ _ Ea). cbn [mbind option_bind].
  destruct c as [xs|xs|kvs|cls content]; [| | |done].
  - intros (ts & Hts & ->)%fmap_Some. apply fmap_Some. exists ts.
    split; [|done]. apply mapM_Some. apply mapM_Some in Hts.
    eapply Forall2_impl; [done|]. intros x y. apply IH.
  - intros (ts & Hts & ->)%fmap_Some. apply fmap_Some. exists ts.
    split; [|done]. apply mapM_Some. apply mapM_Some in Hts.
    eapply Forall2_impl; [done|]. intros x y. apply IH.
  - intros (ts & Hts & ->)%fmap_Some. apply fmap_Some. exists ts.
    split; [|done]. apply mapM_Some. apply mapM_Some in Hts.
    eapply Forall2_impl; [done|]. intros kv kt.
    intros (t & Ht & E)%bind_Some. apply bind_Some. exists t.
    split; [by apply IH|done].
Qed.

Section MapHeap.
Context {A B T : Type}.
Variable F : Store.heap → A → result (B * Store.heap).
Variable Rin : Store.heap → A → T → Prop.
Variable Rout : Store.heap → B → T → Prop.
Variable ok : T → Prop.

(** [F] allocates only, and what it returns reads the same in every
    store that agrees with the final one on the new objects. *)
Hypothesis F_fresh : ∀ h x t, Rin h x t → ok t →
  ∃ y ext, F h x = Ok (y, h ++ ext)
           ∧ ∀ old suffix, length old = length h →
                           Rout (old ++ ext ++ suffix) y t.
Hypothesis Rin_app : ∀ h e x t, Rin h x t → Rin (h ++ e) x t.

Lemma map_heap_fresh (h : Store.heap) (xs : list A) (ts : list T) :
  Forall2 (Rin h) xs ts → Forall ok ts →
  ∀ e0, ∃ ys ext,
    Store.map_heap F (h ++ e0) xs = Ok (ys, h ++ e0 ++ ext)
    ∧ ∀ old suffix, length old = length h →
        Forall2 (Rout (old ++ e0 ++ ext ++ suffix)) ys ts.
Proof using F_fresh Rin_app.
  induction 1 as [|x t xs ts Hx _ IH]; intros Hok e0.
  { exists [], []. rewrite !app_nil_r. split; [done|]. by constructor. }
  apply Forall_cons in Hok as [Ht Hts].
  destruct (F_fresh (h ++ e0) x t (Rin_app _ _ _ _ Hx) Ht)
    as (y & ext1 & Hy & Hout).
  destruct (IH Hts (e0 ++ ext1)) as (ys & ext2 & Hys & Houts).
  exists (y :: ys), (ext1 ++ ext2).
  cbn [Store.map_heap]. rewrite Hy. cbn [mbind result_bind fst snd].
  fold (@Store.map_heap A B F). rewrite <- !app_assoc, Hys.
  cbn [mbind result_bind fst snd]. rewrite <- !app_assoc.
  split; [done|]. intros old suffix Hlen.
  rewrite <- !app_assoc. constructor.
  - specialize (Hout (old ++ e0) (ext2 ++ suffix)).
    rewrite <- !app_assoc in Hout. apply Hout.
    rewrite !length_app. by rewrite Hlen.
  - specialize (Houts old suffix Hlen).
    by rewrite <- !app_assoc in Houts.
Qed.
End MapHeap.

Lemma forallb_Forall {A} (f : A → bool) (l : list A) :
  forallb f l = true ↔ Forall (λ x, f x = true) l.
Proof.
  rewrite forallb_forall, Forall_forall.
  split; intros H x Hx; apply H; by apply list_elem_of_In.
Qed.

Lemma read_dict_entry (n : nat) (h : Store.heap)
    (kv : string * Store.rvalue) (kt : string * Store.tree) :
  (t ← Store.read n h kv.2; Some (kv.1, t)) = Some kt
  ↔ Store.read n h kv.2 = Some kt.2 ∧ kv.1 = kt.1.
Proof.
  destruct kv as [k v], kt as [k' t']. simpl. split.
  - intros (t & Ht & [= -> ->])%bind_Some. done.
  - intros [-> ->]. done.
Qed.

(** The snapshot of plain data is made of new objects only: it denotes
    the tree of its argument in every store that agrees with the
    resulting one on the objects allocated by the call. *)
Lemma snapshot_fresh (ser : Store.heap → nat → result (Store.rvalue * Store.heap))
    (n : nat) :
  ∀ h v t,
    Store.read n h v = Some t → Store.plain t = true →
    ∃ s ext,
      Store._nested_serialize ser n h v = Ok (s, h ++ ext)
      ∧ ∀ old suffix, length old = length h →
                      Store.read n (old ++ ext ++ suffix) s = Some t.
Proof.
  induction n as [|n IH]; intros h v t; [done|].
  destruct v as [x|a].
  { intros [= <-] _. exists (Store.Imm x), [].
    split; [cbn; by rewrite app_nil_r|intros; by cbn]. }
  cbn [Store.read Store._nested_serialize].
  destruct (h !! a) as [c|] eqn:Ea; [|done]. cbn [mbind option_bind].
  destruct c as [xs|xs|kvs|cls content]; [| | |by intros [= <-]].
  - intros (ts & Hts & ->)%fmap_Some Hplain.
    apply mapM_Some in Hts. apply forallb_Forall in Hplain.
    destruct (map_heap_fresh (Store._nested_serialize ser n)
                (λ h x t, Store.read n h x = Some t)
                (λ h y t, Store.read n h y = Some t)
                (λ t, Store.plain t = true) IH
                (λ h e x t, read_app n h e x t) h xs ts Hts Hplain [])
      as (ss & ext & Hmap & Hout).
    rewrite app_nil_r in Hmap. cbn [app] in Hmap. rewrite Hmap.
    cbn [mbind result_bind fst snd]. unfold Store.alloc.
    exists (Store.Ref (length (h ++ ext))), (ext ++ [Store.CList ss]).
    rewrite <- !app_assoc. split; [done|]. intros old suffix Hlen.
    rewrite <- !app_assoc. cbn [Store.read]. unfold Store.heap.
    match goal with
    | |- context [?l !! ?i] => assert (Hl : l !! i = Some (Store.CList ss))
    end.
    { rewrite app_assoc, length_app, <- Hlen, <- length_app.
      apply list_lookup_middle. done. }
    rewrite Hl. cbn [mbind option_bind]. apply fmap_Some. exists ts.
    split; [|done]. apply mapM_Some.
    exact (Hout old ([Store.CList ss] ++ suffix) Hlen).
  - intros (ts & Hts & ->)%fmap_Some Hplain.
    apply mapM_Some in Hts. apply forallb_Forall in Hplain.
    destruct (map_heap_fresh (Store._nested_serialize ser n)
                (λ h x t, Store.read n h x = Some t)
                (λ h y t, Store.read n h y = Some t)
                (λ t, Store.plain t = true) IH
                (λ h e x t, read_app n h e x t) h xs ts Hts Hplain [])
      as (ss & ext & Hmap & Hout).
    rewrite app_nil_r in Hmap. cbn [app] in Hmap. rewrite Hmap.
    cbn [mbind result_bind fst snd]. unfold Store.alloc.
    exists (Store.Ref (length (h ++ ext))), (ext ++ [Store.CTuple ss]).
    rewrite <- !app_assoc. split; [done|]. intros old suffix Hlen.
    rewrite <- !app_assoc. cbn [Store.read]. unfold Store.heap.
    match goal with
    | |- context [?l !! ?i] => assert (Hl : l !! i = Some (Store.CTuple ss))
    end.
    { rewrite app_assoc, length_app, <- Hlen, <- length_app.
      apply list_lookup_middle. done. }
    rewrite Hl. cbn [mbind option_bind]. apply fmap_Some. exists ts.
    split; [|done]. apply mapM_Some.
    exact (Hout old ([Store.CTuple ss] ++ suffix) Hlen).
  - intros (kts & Hkts & ->)%fmap_Some Hplain.
    apply mapM_Some in Hkts. apply forallb_Forall in Hplain.
    assert (Hin : Forall2 (λ kv kt, Store.read n h kv.2 = Some kt.2
                                    ∧ kv.1 = kt.1) kvs kts).
    { eapply Forall2_impl; [done|]. intros kv kt. apply read_dict_entry. }
    destruct (map_heap_fresh
                (λ h (kv : string * Store.rvalue),
                   v ← Store._nested_serialize ser n h kv.2;
                   Ok ((kv.1, v.1), v.2))
                (λ h kv kt, Store.read n h kv.2 = Some kt.2 ∧ kv.1 = kt.1)
                (λ h kv kt, Store.read n h kv.2 = Some kt.2 ∧ kv.1 = kt.1)
                (λ kt, Store.plain kt.2 = true)) with (h := h) (xs := kvs)
                (ts := kts) (e0 := @nil Store.cell)
      as (ss & ext & Hmap & Hout); [| |done|done|].
    { intros h0 [k v] [k' t'] [Hr Hk] Hok. simpl in *. subst k'.
      destruct (IH h0 v t' Hr Hok) as (s & ext & Hs & Hrd).
      exists (k, s), ext. rewrite Hs. split; [done|].
      intros old suffix Hlen. split; [by apply Hrd|done]. }
    { intros h0 e kv kt [Hr Hk]. split; [by apply read_app|done]. }
    rewrite app_nil_r in Hmap. cbn [app] in Hmap. rewrite Hmap.
    cbn [mbind result_bind fst snd]. unfold Store.alloc.
    exists (Store.Ref (length (h ++ ext))), (ext ++ [Store.CDict ss]).
    rewrite <- !app_assoc. split; [done|]. intros old suffix Hlen.
    rewrite <- !app_assoc. cbn [Store.read]. unfold Store.heap.
    match goal with
    | |- context [?l !! ?i] => assert (Hl : l !! i = Some (Store.CDict ss))
    end.
    { rewrite app_assoc, length_app, <- Hlen, <- length_app.
      apply list_lookup_middle. done. }
    rewrite Hl. cbn [mbind option_bind]. apply fmap_Some. exists kts.
    split; [|done]. apply mapM_Some.
    eapply Forall2_impl; [exact (Hout old ([Store.CDict ss] ++ suffix) Hlen)|].
    intros kv kt. apply read_dict_entry.
Qed.

(** The snapshot of a plain value denotes, now and after any later
    write to an object that existed before the call, the tree the value
    denoted at the time of the call. *)
Lemma nested_serialize_plain_isolated
    (ser : Store.heap → nat → result (Store.rvalue * Store.heap))
    (n : nat) (h : Store.heap) (v : Store.rvalue) (t : Store.tree) :
  Store.read n h v = Some t → Store.plain t = true →
  ∃ s h',
    Store._nested_serialize ser n h v = Ok (s, h')
    ∧ Store.read n h' s = Some t
    ∧ ∀ a c, a < length h → Store.read n (<[a:=c]> h') s = Some t.
Proof.
  intros Hr Hp.
  destruct (snapshot_fresh ser n h v t Hr Hp) as (s & ext & Hs & Hrd).
  exists s, (h ++ ext). split; [done|]. split.
  - specialize (Hrd h [] eq_refl). by rewrite app_nil_r in Hrd.
  - intros a c Ha. unfold Store.heap in *.
    rewrite insert_app_l by done.
    specialize (Hrd (<[a:=c]> h) []). rewrite app_nil_r in Hrd.
    apply Hrd. apply length_insert.
Qed.

(** C9 (amended).  When the positional arguments of a constructor are
    built from lists, tuples, dicts and immutable primitives only, the
    snapshot stored by [save_args] is made of new objects: it denotes
    the tuple of the arguments as they were at the call, and goes on
    doing so after any in-place mutation of any object that existed at
    the call, the arguments and everything inside them included. *)
Theorem snapshot_of_plain_arguments_isolated
    (ser : Store.heap → nat → result (Store.rvalue * Store.heap))
    (n : nat) (h : Store.heap) (args : list Store.rvalue)
    (ts : list Store.tree) :
  mapM (Store.read n h) args = Some ts →
  forallb Store.plain ts = true →
  ∃ snapshot h',
    Store.capture ser (S n) h args = Ok (snapshot, h')
    ∧ Store.read (S n) h' snapshot = Some (Store.TTuple ts)
    ∧ ∀ a c, a < length h →
             Store.read (S n) (<[a:=c]> h') snapshot
             = Some (Store.TTuple ts).
Proof.
  intros Hargs Hplain. unfold Store.capture, Store.alloc. cbn [fst snd].
  assert (Hr : Store.read (S n) (h ++ [Store.CTuple args])
                 (Store.Ref (length h)) = Some (Store.TTuple ts)).
  { cbn [Store.read]. unfold Store.heap in *.
    rewrite list_lookup_middle by done. cbn [mbind option_bind].
    apply fmap_Some. exists ts. split; [|done].
    apply mapM_Some. apply mapM_Some in Hargs.
    eapply Forall2_impl; [done|]. intros x t. apply read_app. }
  destruct (nested_serialize_plain_isolated ser (S n) _ _ _ Hr Hplain)
    as (s & h' & Hs & Hnow & Hlater).
  exists s, h'. split_and!; [done|done|].
  intros a c Ha. apply Hlater. rewrite length_app. lia.
Qed.

Lemma snapshot_of_plain_arguments_isolated_witness :
  ∃ snapshot h',
    Store.capture Store.no_modules 5 Store.heap_with_list [Store.Ref 3]
    = Ok (snapshot, h')
    ∧ ∀ a c, a < 4 →
        Store.read 5 (<[a:=c]> h') snapshot
        = Some (Store.TTuple
                  [Store.TList
                     [Store.TLeaf (LInt 1);
                      Store.TList [Store.TLeaf (LInt 2); Store.TLeaf (LInt 3)];
                      Store.TDict
                        [("k"%string, Store.TTuple [Store.TLeaf (LInt 4)])]]]).
Proof.
  destruct (snapshot_of_plain_arguments_isolated Store.no_modules 4
              Store.heap_with_list [Store.Ref 3]
              [Store.TList
                 [Store.TLeaf (LInt 1);
                  Store.TList [Store.TLeaf (LInt 2); Store.TLeaf (LInt 3)];
                  Store.TDict
                    [("k"%string, Store.TTuple [Store.TLeaf (LInt 4)])]]]
              eq_refl eq_refl) as (s & h' & Hs & _ & Hlater).
  exists s, h'. split; [exact Hs|exact Hlater].
Defined.

(** C9 (counterexample).  An argument that is neither a module nor a
    list, tuple or dict (here an array) is returned by
    [_nested_serialize] as it came in: the snapshot is a reference to
    the very object that was passed, and writing into that object
    changes what the snapshot denotes. *)
Lemma snapshot_isolated_counterexample :
  ¬ Store.snapshot_isolated Store.no_modules.
Proof.
  intros H.
  specialize (H 2 Store.heap_with_array 0
                (Store.CObject Store.ndarray [0; 0; 0]%Z)
                (Store.Ref 0) Store.heap_with_array
                (Store.TObject Store.ndarray [0; 0; 0]%Z)
                (Store.CObject Store.ndarray [7; 0; 0]%Z)
                eq_refl eq_refl eq_refl eq_refl).
  discriminate.
Qed.

Lemma array_snapshot_is_the_argument
    (ser : Store.heap → nat → result (Store.rvalue * Store.heap)) :
  Store._nested_serialize ser 2 Store.heap_with_array (Store.Ref 0)
  = Ok (Store.Ref 0, Store.heap_with_array).
Proof. reflexivity. Qed.

(** ** The store model against the tree model *)

Lemma mapR_id {A} (f : A → result A) (xs : list A) :
  Forall (λ x, f x = Ok x) xs → mapR f xs = Ok xs.
Proof.
  induction 1 as [|x r Hx _ IH]; [done|].
  cbn [mapR]. rewrite Hx. cbn [mbind result_bind].
  fold (mapR f). by rewrite IH.
Qed.

(** On plain data the serializer of the tree model is the identity. *)
Lemma nested_serialize_plain_tree (t : Store.tree) :
  Store.plain t = true →
  _nested_serialize (Store.to_value t) = Ok (Store.to_value t).
Proof.
  induction t as [x|ts IH|ts IH|kts IH|cls content] using Store.tree_ind';
    intros Hp; [| | | |done].
  - cbn [Store.to_value].
    by rewrite _nested_serialize_non_module by by destruct x as [| | | |[]|].
  - cbn [Store.to_value Store.plain] in *.
    rewrite _nested_serialize_non_module by done.
    apply forallb_Forall in Hp. rewrite mapR_id; [done|].
    apply Forall_fmap, Forall_forall. intros t Ht.
    rewrite Forall_forall in IH, Hp. apply IH; [done|by apply Hp].
  - cbn [Store.to_value Store.plain] in *.
    rewrite _nested_serialize_non_module by done.
    apply forallb_Forall in Hp. rewrite mapR_id; [done|].
    apply Forall_fmap, Forall_forall. intros t Ht.
    rewrite Forall_forall in IH, Hp. apply IH; [done|by apply Hp].
  - cbn [Store.to_value Store.plain] in *.
    rewrite _nested_serialize_non_module by done.
    apply forallb_Forall in Hp. rewrite mapR_id; [done|].
    apply Forall_fmap, Forall_forall. intros [k t] Ht.
    rewrite Forall_forall in IH, Hp.
    pose proof (IH _ Ht (Hp _ Ht)) as E. simpl in E |- *. by rewrite E.
Qed.

(** The two models agree on plain data: the snapshot taken in the store
    denotes the tree whose value is the result of [_nested_serialize] in
    the tree model. *)
Lemma store_refines_tree_model
    (ser : Store.heap → nat → result (Store.rvalue * Store.heap))
    (n : nat) (h : Store.heap) (v : Store.rvalue) (t : Store.tree) :
  Store.read n h v = Some t → Store.plain t = true →
  ∃ s h' t',
    Store._nested_serialize ser n h v = Ok (s, h')
    ∧ Store.read n h' s = Some t'
    ∧ _nested_serialize (Store.to_value t) = Ok (Store.to_value t').
Proof.
  intros Hr Hp.
  destruct (nested_serialize_plain_isolated ser n h v t Hr Hp)
    as (s & h' & Hs & Hnow & _).
  exists s, h', t. split_and!; [done|done|].
  by apply nested_serialize_plain_tree.
Qed.

(* ================================================================== *)
(** * 21. Further properties of the engine                              *)
(* ================================================================== *)

#[local] Open Scope string_scope.

(** ** Conformance checks *)

Lemma validate_loadable_modules_ok_inv (modules : list value) :
  validate_loadable_modules modules = Ok () →
  Forall (λ m, isinstance m LoadableMixin = true) modules.
Proof.
  induction modules as [|m r IH]; [by constructor|]. simpl.
  unfold validate_loadable_module.
  destruct (isinstance m LoadableMixin) eqn:E; simpl; [|done].
  intros H. constructor; [done|by apply IH].
Qed.

(** X1.  [validate_loadable_modules] returns exactly when every element
    is a [LoadableMixin] instance; otherwise it raises the [TypeError]
    of the first element that is not, whatever comes after it. *)
Theorem validate_loadable_modules_spec (modules : list value) :
  (validate_loadable_modules modules = Ok ()
   ↔ Forall (λ m, isinstance m LoadableMixin = true) modules)
  ∧ (∀ good bad rest,
       modules = (good ++ bad :: rest)%list →
       Forall (λ m, isinstance m LoadableMixin = true) good →
       isinstance bad LoadableMixin = false →
       validate_loadable_modules modules = Raise (not_loadable_error bad)).
Proof.
  split.
  - split; [apply validate_loadable_modules_ok_inv|
            apply validate_loadable_modules_accepts].
  - intros good bad rest -> Hgood Hbad.
    by apply validate_loadable_modules_rejects.
Qed.

Lemma validate_loadable_modules_spec_witness :
  validate_loadable_modules [loadable_module; relu; relu]
  = Raise (not_loadable_error relu).
Proof.
  apply (proj2 (validate_loadable_modules_spec [loadable_module; relu; relu])
           [loadable_module] relu [relu]).
  - reflexivity.
  - constructor; [reflexivity|constructor].
  - reflexivity.
Defined.

(** X2.  The loop of [LoadableModuleDict.__init__] accepts exactly the
    tables whose values are all [LoadableMixin] instances, and otherwise
    raises the [TypeError] that names the key of the first value that is
    not. *)
Theorem check_items_spec (items : list (string * value)) :
  (check_items items = Ok ()
   ↔ Forall (λ kv, isinstance kv.2 LoadableMixin = true) items)
  ∧ (∀ good key bad rest,
       items = (good ++ (key, bad) :: rest)%list →
       Forall (λ kv, isinstance kv.2 LoadableMixin = true) good →
       isinstance bad LoadableMixin = false →
       check_items items
       = Raise (TypeError ("Module '" +:+ key +:+ "' must be Loadable"))).
Proof.
  split.
  - induction items as [|[k m] r IH]; [by split; [constructor|]|].
    simpl. destruct (isinstance m LoadableMixin) eqn:E; simpl.
    + rewrite IH. split; [by constructor|]. by intros [_ H]%Forall_cons.
    + split; [done|]. intros [H _]%Forall_cons. simpl in H. congruence.
  - intros good key bad rest -> Hgood Hbad.
    induction Hgood as [|[k m] good Hm _ IH]; simpl.
    + by rewrite Hbad.
    + simpl in Hm. by rewrite Hm.
Qed.

Lemma check_items_spec_witness :
  check_items [("a", loadable_module); ("b", relu)]
  = Raise (TypeError "Module 'b' must be Loadable").
Proof.
  apply (proj2 (check_items_spec [("a", loadable_module); ("b", relu)])
           [("a", loadable_module)] "b" relu []).
  - reflexivity.
  - constructor; [reflexivity|constructor].
  - reflexivity.
Defined.

(** ** make_loadable *)

(** X3.  When [make_loadable(K)] returns, the class it returns is named
    ["Loadable" + K.__name__], lives in this module, and is a subclass of
    [K], of every class [K] is a subclass of, of [LoadableMixin] and of
    [DynamicLoadableMixin]; so each of its instances passes
    [validate_loadable_module] and can be put in a container. *)
Theorem make_loadable_subclass (K c : pyclass) (a k : option value)
    (st : value) (ms : list (string * value)) :
  make_loadable K = Ok c →
  k_name c = "Loadable" +:+ k_name K
  ∧ k_qualname c = "Loadable" +:+ k_name K
  ∧ k_module c = this_module
  ∧ issubclass c K = true
  ∧ issubclass c LoadableMixin = true
  ∧ issubclass c DynamicLoadableMixin = true
  ∧ (∀ base, issubclass K base = true → issubclass c base = true)
  ∧ validate_loadable_module (VObj c a k st ms) = Ok ().
Proof.
  intros Hc.
  pose proof (issubclass_DynamicModule K c) as Hsub.
  assert (HLM : issubclass c LoadableMixin = true) by (apply Hsub; auto).
  split_and!; try (apply Hsub; by auto).
  - by apply make_loadable_ok in Hc as [-> _].
  - by apply make_loadable_ok in Hc as [-> _].
  - by apply make_loadable_ok in Hc as [-> _].
  - intros base Hb. apply Hsub; auto.
  - apply validate_loadable_module_accepts. exact HLM.
Qed.

Lemma make_loadable_subclass_witness :
  issubclass (DynamicModule nn_Linear) nn_Module = true
  ∧ validate_loadable_module
      (VObj (DynamicModule nn_Linear) None None (VDict []) []) = Ok ().
Proof.
  destruct (make_loadable_subclass nn_Linear (DynamicModule nn_Linear)
              None None (VDict []) [] eq_refl)
    as (_ & _ & _ & _ & _ & _ & Hb & Hv).
  split; [apply Hb; reflexivity|exact Hv].
Defined.

(** A class that already descends from [DynamicLoadableMixin] cannot be
    listed after it among the bases. *)
Lemma mro_DynamicModule_of_dynamic (K : pyclass) :
  issubclass K DynamicLoadableMixin = true → mro (DynamicModule K) = None.
Proof.
  intros Hsub. unfold issubclass in Hsub.
  destruct (mro K) as [lk|] eqn:EK; [|done].
  destruct (mro_head _ _ EK) as [lk' ->].
  rewrite mro_unfold.
  change (k_bases (DynamicModule K)) with [DynamicLoadableMixin; K].
  assert (Hls : mapM mro [DynamicLoadableMixin; K]
                = Some [[DynamicLoadableMixin; LoadableMixin; py_object];
                        K :: lk']).
  { apply mapM_Some. constructor; [apply mro_DynamicLoadableMixin|].
    constructor; [done|constructor]. }
  rewrite Hls. cbn [mbind option_bind].
  cbn [app total_length foldr length Nat.add]. rewrite c3_merge_S.
  cbn [forallb is_nil andb].
  set (seqs := [[DynamicLoadableMixin; LoadableMixin; py_object];
                K :: lk'; [DynamicLoadableMixin; K]]).
  assert (A1 : existsb (in_tail DynamicLoadableMixin) seqs = true).
  { subst seqs. cbn [existsb in_tail].
    destruct (klass_eqb DynamicLoadableMixin K) eqn:E.
    - cbn [klass_in existsb]. rewrite E. by rewrite !orb_true_r.
    - apply klass_in_In in Hsub. apply elem_of_cons in Hsub as [Hsub|Hsub].
      + apply klass_eqb_neq in E. done.
      + apply klass_in_In in Hsub. rewrite Hsub. by rewrite orb_true_r. }
  assert (A2 : existsb (in_tail K) seqs = true).
  { subst seqs. cbn [existsb in_tail klass_in].
    rewrite klass_eqb_refl. by rewrite !orb_true_r. }
  subst seqs. cbn [c3_candidate]. rewrite A1, A2. done.
Qed.

(** X4.  [make_loadable] cannot be applied to a class it has produced,
    nor to any other subclass of [DynamicLoadableMixin]: the class
    statement has no consistent method resolution order and raises
    [TypeError].  Since deserialization wraps whatever class it is
    given, a tagged record cannot be loaded with such a class as hint
    (for instance [type(obj).load(...)] on an object that was itself
    loaded). *)
Theorem make_loadable_twice_fails {R : Runtime} (K : pyclass)
    (state : list (string * value)) :
  issubclass K DynamicLoadableMixin = true →
  make_loadable K
  = Raise (TypeError
      "Cannot create a consistent method resolution order (MRO) for bases")
  ∧ (dict_has tag_key state = true →
     _nested_unserialize (VDict state) (Some K)
     = Raise (TypeError
         "Cannot create a consistent method resolution order (MRO) for bases")).
Proof.
  intros Hsub.
  assert (Hm : make_loadable K
               = Raise (TypeError
                   "Cannot create a consistent method resolution order (MRO) for bases")).
  { unfold make_loadable. by rewrite mro_DynamicModule_of_dynamic. }
  split; [done|]. intros Htag.
  rewrite _nested_unserialize_record by done.
  cbn [mbind result_bind]. rewrite isinstance_class_LoadableMixin.
  cbn [negb]. by rewrite Hm.
Qed.

Lemma make_loadable_twice_fails_witness :
  make_loadable (DynamicModule nn_Linear)
  = Raise (TypeError
      "Cannot create a consistent method resolution order (MRO) for bases")
  ∧ is_ok (make_loadable nn_Linear) = true.
Proof.
  split; [|reflexivity].
  exact (proj1 (@make_loadable_twice_fails (Torch.runtime [])
                  (DynamicModule nn_Linear) [] eq_refl)).
Defined.

(** ** Malformed records *)

Section Malformed.
Context {R : Runtime}.

(** X5.  Loading a tagged record without a hint: when ["qualname"] is
    missing the result is [KeyError('qualname')], also when ["module"]
    is missing too; when only ["module"] is missing it is
    [KeyError('module')] (both raised from inside the [except] handler,
    which indexes the record again); when both are present and the
    import fails it is the [ImportError] that carries them. *)
Theorem unresolved_record_errors (state : list (string * value)) :
  dict_has tag_key state = true →
  (dict_get "qualname" state = None →
   _nested_unserialize (VDict state) None = Raise (KeyError "qualname"))
  ∧ (∀ q, dict_get "qualname" state = Some q →
          dict_get "module" state = None →
          _nested_unserialize (VDict state) None = Raise (KeyError "module"))
  ∧ (∀ m q, dict_get "module" state = Some m →
            dict_get "qualname" state = Some q →
            import_qualname m q = None →
            _nested_unserialize (VDict state) None
            = Raise (ImportError "Could not import type" q "from module" m)).
Proof.
  intros Htag. rewrite _nested_unserialize_record by done.
  unfold resolve. split_and!.
  - intros ->. by destruct (dict_get "module" state).
  - by intros q -> ->.
  - by intros m q -> -> ->.
Qed.

(** X6.  Once the class of a tagged record is settled, a missing
    ["args"] field gives [KeyError('args')]; with ["args"] readable, a
    missing ["kwargs"] field gives [KeyError('kwargs')]. *)
Theorem missing_arguments_errors (state : list (string * value))
    (hint c : pyclass) :
  dict_has tag_key state = true →
  make_loadable hint = Ok c →
  (dict_get "args" state = None →
   _nested_unserialize (VDict state) (Some hint) = Raise (KeyError "args"))
  ∧ (∀ a a', dict_get "args" state = Some a →
             _nested_unserialize a None = Ok a' →
             dict_get "kwargs" state = None →
             _nested_unserialize (VDict state) (Some hint)
             = Raise (KeyError "kwargs")).
Proof.
  intros Htag Hc. rewrite _nested_unserialize_hinted by done.
  rewrite Hc. cbn [mbind result_bind]. unfold getitem. split.
  - by intros ->.
  - intros a a' -> Ha ->. cbn [mbind result_bind]. by rewrite Ha.
Qed.

(** X7.  Fields of a tagged record other than the six the engine reads
    are ignored: setting such a field changes nothing in the result. *)
Theorem unknown_fields_ignored (state : list (string * value))
    (key : string) (v : value) (klass : option pyclass) :
  dict_has tag_key state = true →
  key ∉ record_keys →
  _nested_unserialize (VDict (dict_set key v state)) klass
  = _nested_unserialize (VDict state) klass.
Proof.
  intros Htag Hkey. unfold record_keys in Hkey.
  repeat (apply not_elem_of_cons in Hkey as [? Hkey]).
  rewrite !_nested_unserialize_record
    by (done || by rewrite dict_has_set_ne).
  unfold resolve.
  rewrite !getitem_set_ne, !dict_has_set_ne, !dict_get_set_ne by done.
  done.
Qed.
End Malformed.

Lemma unresolved_record_errors_witness :
  @_nested_unserialize (Torch.runtime []) (VDict outer_record) None
  = Raise (KeyError "qualname").
Proof.
  exact (proj1 (@unresolved_record_errors (Torch.runtime []) outer_record
                  eq_refl) eq_refl).
Defined.

Lemma missing_arguments_errors_witness :
  @_nested_unserialize (Torch.runtime [])
     (VDict [(tag_key, str __version__)]) (Some LoadableModule)
  = Raise (KeyError "args").
Proof.
  exact (proj1 (@missing_arguments_errors (Torch.runtime [])
                  [(tag_key, str __version__)] LoadableModule
                  (DynamicModule LoadableModule) eq_refl eq_refl) eq_refl).
Defined.

Lemma unknown_fields_ignored_witness :
  @_nested_unserialize (Torch.runtime [])
     (VDict (dict_set "losses" (VDict []) stale_record)) None
  = @_nested_unserialize (Torch.runtime []) (VDict stale_record) None.
Proof.
  apply (@unknown_fields_ignored (Torch.runtime []) stale_record "losses"
           (VDict []) None eq_refl).
  unfold record_keys. intros H.
  repeat (apply elem_of_cons in H as [H|H]; [discriminate H|]).
  by apply elem_of_nil in H.
Defined.

(** ** Data without modules and without records *)








(** ** Argument capture that fails *)

(** X10.  The wrapper of [save_args] on an object without [_args]: when
    the snapshot of the positional arguments raises, the wrapper raises
    the same exception, [self] is left as it was and the decorated
    [__init__] is not run; when the snapshot of the keyword arguments
    raises, [_args] has been assigned already and stays, [_kwargs] is
    not assigned, and the decorated [__init__] is not run either. *)
Theorem save_args_failure (init : initializer) (args : list value)
    (kwargs : list (string * value)) (self : instance) (e : exn) :
  hasattr_args self = false →
  (_nested_serialize (VTuple args) = Raise e →
   save_args init args kwargs self = (Raise e, self))
  ∧ (∀ a, _nested_serialize (VTuple args) = Ok a →
          _nested_serialize (VDict kwargs) = Raise e →
          save_args init args kwargs self
          = (Raise e,
             mk_instance (i_class self) (Some a) (i_kwargs self)
                         (i_state self) (i_modules self)
                         (S (i_captures self)))).
Proof.
  intros Hno. unfold save_args.
  cbv [mbind M_bind liftR set__args set__kwargs get_self mret M_ret].
  rewrite Hno. cbn [negb]. split.
  - by intros ->.
  - by intros a -> ->.
Qed.

Lemma save_args_failure_witness :
  save_args (λ _ _, mret ()) [relu] [] (blank LoadableModule)
  = (Raise (conformance_error nn_ReLU), blank LoadableModule).
Proof.
  exact (proj1 (save_args_failure (λ _ _, mret ()) [relu] []
                  (blank LoadableModule) (conformance_error nn_ReLU)
                  eq_refl) eq_refl).
Defined.

(** X11.  A class whose own [__init__] is decorated with [save_args]
    (or is the one of [LoadableModule] or of a [make_loadable] class)
    cannot be instantiated on arguments whose snapshot fails: the call
    raises the exception of [_nested_serialize], whatever the
    initialisers of the class and its bases do. *)
Theorem construct_rejects_unserializable {R : Runtime} (cls : pyclass)
    (leaf : init_impl) (rest : list init_impl) (args : list value)
    (kwargs : list (string * value)) (e : exn) :
  init_chain cls = leaf :: rest →
  is_wrapped leaf = true →
  _nested_serialize (VTuple args) = Raise e
  ∨ (∃ a, _nested_serialize (VTuple args) = Ok a
          ∧ _nested_serialize (VDict kwargs) = Raise e) →
  construct cls args kwargs = Raise e.
Proof.
  intros Hchain Hleaf Hfail. unfold construct. rewrite Hchain.
  cbn [run_init].
  assert (H : ∀ init, (save_args init args kwargs (blank cls)).1 = Raise e).
  { intros init. unfold save_args.
    cbv [mbind M_bind liftR set__args set__kwargs get_self mret M_ret].
    cbn [blank hasattr_args i_args negb].
    destruct Hfail as [-> | (a & -> & ->)]; done. }
  destruct leaf as [| | | |wrapped n id]; try done.
  - specialize (H (λ args kwargs, run_init rest args kwargs)).
    by destruct (save_args _ args kwargs (blank cls)) as [[] ?];
      simpl in H; simplify_eq.
  - simpl in Hleaf. subst wrapped.
    specialize (H (external_init id (run_init rest))).
    by destruct (save_args _ args kwargs (blank cls)) as [[] ?];
      simpl in H; simplify_eq.
Qed.

Lemma construct_rejects_unserializable_witness :
  @construct (Torch.runtime []) LoadableModule [relu] []
  = Raise (conformance_error nn_ReLU).
Proof.
  apply (@construct_rejects_unserializable (Torch.runtime []) LoadableModule
           InitSaveArgsSuper (List.tl (init_chain LoadableModule))
           [relu] [] (conformance_error nn_ReLU)).
  - vm_compute. reflexivity.
  - reflexivity.
  - left. reflexivity.
Defined.

(** ** Records of containers and optimizers *)

Lemma mapR_Forall2 {A B} (f : A → result B) (xs : list A) (ys : list B) :
  mapR f xs = Ok ys → Forall2 (λ x y, f x = Ok y) xs ys.
Proof.
  revert ys. induction xs as [|x r IH]; intros ys.
  - intros [= <-]. constructor.
  - cbn [mapR]. destruct (f x) as [y|] eqn:Ex; [|done].
    cbn [mbind result_bind]. fold (mapR f).
    destruct (mapR f r) as [zs|]; [|done].
    intros [= <-]. constructor; [done|by apply IH].
Qed.

(** X12.  The record of a [LoadableSequential], [LoadableModuleList] or
    [LoadableModuleDict] (or of a subclass that inherits its
    [serialize]) is rebuilt from the children the container holds when
    it is serialized: it does not depend on the captured [_args] nor on
    the state of the container, it has no ["state"] field, and its
    ["args"] field lays out the records of the children, one per child,
    in order, each under the key of its child. *)
Theorem container_record_from_children (c : pyclass) (impl : ser_impl)
    (rest : list ser_impl) (a a' k : option value) (st st' : value)
    (ms : list (string * value)) :
  serialize_chain c = impl :: rest →
  is_container impl = true →
  serialize (VObj c a k st ms) = serialize (VObj c a' k st' ms)
  ∧ ∀ r, serialize (VObj c a k st ms) = Ok r →
         ∃ d rs, r = VDict d
                 ∧ dict_has "state" d = false
                 ∧ dict_get "args" d = Some (children_layout impl rs)
                 ∧ Forall2 (λ nm nr, nr.1 = nm.1 ∧ serialize nm.2 = Ok nr.2)
                           ms rs.
Proof.
  intros Hchain Himpl. rewrite !serialize_VObj, Hchain.
  split; [by destruct impl|].
  intros r Hr.
  assert (∃ rs, mapR (λ nm, x ← serialize nm.2; Ok (nm.1, x)) ms = Ok rs
                ∧ r = container_record c (children_layout impl rs) k)
    as (rs & Hrs & ->).
  { destruct impl; try done; cbn [run_serialize] in Hr;
      apply result_bind_ok in Hr as (rs & Hrs & [= <-]); by exists rs. }
  unfold container_record. eexists _, rs.
  split; [reflexivity|]. split; [done|]. split; [done|].
  apply mapR_Forall2 in Hrs.
  eapply Forall2_impl; [exact Hrs|].
  intros [n m] [n' x] H. cbn [fst snd] in *.
  destruct (serialize m) as [y|]; [|done].
  by injection H as -> ->.
Qed.

Lemma container_record_from_children_witness :
  serialize pipeline
  = serialize (VObj LoadableSequential (Some (VTuple [relu])) None
                    (VDict [("weight", weight)]) [("0", trained_module)]).
Proof.
  exact (proj1 (container_record_from_children LoadableSequential
                  SerSequential (List.tl (serialize_chain LoadableSequential))
                  None (Some (VTuple [relu])) None (VDict [])
                  (VDict [("weight", weight)]) [("0", trained_module)]
                  eq_refl eq_refl)).
Defined.

(** X13.  [LoadableOptimizer.serialize] changes the record of
    [LoadableMixin.serialize] only when the first captured positional
    argument is itself a tensor or a parameter: with no captured
    arguments, with none positional, or with any other first argument
    (a list of parameters, a list of parameter groups) the record is
    the one of [LoadableMixin.serialize], arguments included. *)
Theorem optimizer_record_unchanged (cls : pyclass)
    (args : option (list value)) (kwargs : option value) (state : value)
    (modules : list (string * value)) (chain : list ser_impl) :
  serialize_chain cls = SerOptimizer :: SerLoadableMixin :: chain →
  (∀ x, head (default [] args) = Some x → is_parameter_or_tensor x = false) →
  serialize (VObj cls (VTuple <$> args) kwargs state modules)
  = Ok (LoadableMixin_serialize cls (VTuple <$> args) kwargs state).
Proof.
  intros Hchain Hhead. rewrite serialize_VObj, Hchain.
  cbn [run_serialize]. unfold LoadableMixin_serialize.
  rewrite LoadableOptimizer_serialize_record.
  destruct args as [[|x xs]|]; cbn [fmap option_fmap option_map default
    from_option id strip_params truthy is_nil negb]; try done.
  rewrite (Hhead x) by done. done.
Qed.

Lemma optimizer_record_unchanged_witness :
  serialize (VObj MyAdam (Some (VTuple [VList [weight; bias]; lr]))
                  (Some (VDict [])) adam_state [])
  = Ok (LoadableMixin_serialize MyAdam
          (Some (VTuple [VList [weight; bias]; lr])) (Some (VDict []))
          adam_state).
Proof.
  apply (optimizer_record_unchanged MyAdam
           (Some [VList [weight; bias]; lr]) (Some (VDict [])) adam_state
           [] []).
  - reflexivity.
  - intros x [= <-]. reflexivity.
Defined.

(** ** The class of what deserialization builds *)

Section Built.
Context {R : Runtime}.

(** X14.  Whatever a tagged record is read back to, the object is an
    instance of the class the record names (or of the hint, when one is
    given), of every base of that class and of [LoadableMixin]; it
    passes [validate_loadable_module], so it can be placed in a
    loadable container and serialized as an argument. *)
Theorem unserialized_is_loadable (state : list (string * value))
    (klass : option pyclass) (v : value) :
  dict_has tag_key state = true →
  _nested_unserialize (VDict state) klass = Ok v →
  ∃ k, match klass with
       | Some h => k = h
       | None => resolve state = Ok k
       end
       ∧ isinstance v k = true
       ∧ (∀ base, issubclass k base = true → isinstance v base = true)
       ∧ isinstance v LoadableMixin = true
       ∧ validate_loadable_module v = Ok ().
Proof.
  intros Htag Hv.
  destruct (unserialize_record_inv state klass v Htag Hv)
    as (k & c & Hk & Hc & Ht).
  pose proof (issubclass_DynamicModule k c) as Hsub.
  exists k. unfold isinstance. rewrite Ht.
  assert (HLM : issubclass c LoadableMixin = true) by (apply Hsub; auto).
  split_and!; [done|apply Hsub; auto| |done|].
  - intros base Hb. apply Hsub; auto.
  - apply validate_loadable_module_accepts. unfold isinstance.
    by rewrite Ht.
Qed.
End Built.

Lemma unserialized_is_loadable_witness :
  ∃ v, @_nested_unserialize (Torch.runtime []) (VDict outdated_record) None
       = Ok v
       ∧ isinstance v nn_Module = true
       ∧ validate_loadable_module v = Ok ().
Proof.
  destruct (@_nested_unserialize (Torch.runtime [])
              (VDict outdated_record) None)
    as [v|e] eqn:E; [|vm_compute in E; discriminate E].
  exists v. split; [reflexivity|].
  destruct (@unserialized_is_loadable (Torch.runtime []) outdated_record
              None v eq_refl E) as (k & Hk & _ & Hb & _ & Hv).
  split; [|exact Hv]. apply Hb.
  vm_compute in Hk. injection Hk as <-. reflexivity.
Defined.

(** ** Components of a trainer *)

Lemma mapR_of_Forall2 {A B} (f : A → result B) (xs : list A) (ys : list B) :
  Forall2 (λ x y, f x = Ok y) xs ys → mapR f xs = Ok ys.
Proof.
  induction 1 as [|x y r ys Hx _ IH]; [done|].
  cbn [mapR]. rewrite Hx. cbn [mbind result_bind]. fold (mapR f).
  by rewrite IH.
Qed.

Lemma mapR_first_raise {A B} (f : A → result B) (good : list A) (bad : A)
    (rest : list A) (e : exn) :
  Forall (λ x, is_ok (f x) = true) good →
  f bad = Raise e →
  mapR f (good ++ bad :: rest) = Raise e.
Proof.
  intros Hgood Hbad. induction Hgood as [|x r Hx _ IH].
  - cbn [app mapR]. by rewrite Hbad.
  - cbn [app mapR]. destruct (f x); [|done].
    cbn [mbind result_bind]. fold (mapR f). by rewrite IH.
Qed.

Lemma serialize_without_method (m : value) :
  serialize_chain (type_of m) = [] →
  serialize m = Raise (AttributeError "serialize").
Proof.
  destruct m as [| | | |c a k st ms]; try done.
  cbn [type_of]. intros H. by rewrite serialize_VObj, H.
Qed.

(** X15.  [_get_components_state_dict] returns a dict with the names of
    the component, in order, each bound to the record its member's
    [serialize()] returns, exactly when every member serializes; a
    member that has no [serialize] method (a plain
    [torch.optim.Optimizer], say) makes the whole call raise
    [AttributeError], when the members before it serialize. *)
Theorem components_state_dict_spec (component : list (string * value)) :
  (∀ rs, _get_components_state_dict component = Ok (VDict rs)
         ↔ Forall2 (λ nm nr, nr.1 = nm.1 ∧ serialize nm.2 = Ok nr.2)
                   component rs)
  ∧ (∀ good name member rest,
       component = (good ++ (name, member) :: rest)%list →
       Forall (λ nm, is_ok (serialize nm.2) = true) good →
       serialize_chain (type_of member) = [] →
       _get_components_state_dict component
       = Raise (AttributeError "serialize")).
Proof.
  unfold _get_components_state_dict. split.
  - intros rs. split.
    + intros H.
      destruct (mapR _ component) as [rs'|] eqn:E; [|done].
      injection H as <-. apply mapR_Forall2 in E.
      eapply Forall2_impl; [exact E|].
      intros [n m] [n' x] H. cbn [fst snd] in *.
      destruct (serialize m) as [y|]; [|done]. by injection H as -> ->.
    + intros H. rewrite (mapR_of_Forall2 _ component rs); [done|].
      eapply Forall2_impl; [exact H|].
      intros [n m] [n' x] [Hn Hm]. cbn [fst snd] in *. subst n'.
      by rewrite Hm.
  - intros good name member rest -> Hgood Hm.
    rewrite (mapR_first_raise _ good (name, member) rest
               (AttributeError "serialize")); [done| |].
    + eapply Forall_impl; [exact Hgood|].
      intros [n m] H. cbn [fst snd] in *. by destruct (serialize m).
    + cbn [fst snd]. by rewrite serialize_without_method.
Qed.

Lemma components_state_dict_spec_witness :
  _get_components_state_dict
    [("main", VObj MyAdam (Some (VTuple [weight; lr])) (Some (VDict []))
                adam_state []);
     ("aux", VObj optim_Adam None None adam_state [])]
  = Raise (AttributeError "serialize").
Proof.
  apply (proj2 (components_state_dict_spec _)
           [("main", VObj MyAdam (Some (VTuple [weight; lr]))
                       (Some (VDict [])) adam_state [])]
           "aux" (VObj optim_Adam None None adam_state []) []).
  - reflexivity.
  - constructor; [reflexivity|constructor].
  - reflexivity.
Defined.

(** ** StateMixin *)

Lemma dict_get_not_key (key : string) (d : list (string * value)) :
  key ∉ d.*1 → dict_get key d = None.
Proof.
  induction d as [|[k x] r IH]; [done|].
  cbn [fmap list_fmap fst dict_get]. intros H.
  apply not_elem_of_cons in H as [Hne H].
  destruct (String.eqb_spec k key) as [->|_]; [done|]. by apply IH.
Qed.

Lemma foldl_setattr_lookup (kvs attrs : list (string * value))
    (key : string) :
  NoDup kvs.*1 →
  dict_get key (foldl setattr attrs kvs)
  = match dict_get key kvs with
    | Some v => Some v
    | None => dict_get key attrs
    end.
Proof.
  revert attrs. induction kvs as [|[k v] r IH]; intros attrs Hnd; [done|].
  cbn [fmap list_fmap fst] in Hnd. apply NoDup_cons in Hnd as [Hk Hnd].
  cbn [foldl dict_get]. rewrite IH by done. unfold setattr. cbn [fst snd].
  destruct (String.eqb_spec k key) as [->|Hne].
  - by rewrite (dict_get_not_key key r), dict_get_set_eq.
  - rewrite dict_get_set_ne by done. done.
Qed.

(** X16.  [StateMixin.load_state_dict] on a dict merges it into the
    object: afterwards every attribute named in the dict has the value
    the dict gives it, and every other attribute is as it was; nothing
    is reset and no key is checked against the fields of the class.  No
    file is read.  On a value that is neither a path nor a dict the
    call raises [AttributeError] (there is no [items]). *)
Theorem StateMixin_load_state_dict_merges {F : StateFiles}
    (kvs attrs : list (string * value)) :
  NoDup kvs.*1 →
  ∃ attrs',
    StateMixin_load_state_dict (VDict kvs) attrs = Ok attrs'
    ∧ (∀ key v, dict_get key kvs = Some v → dict_get key attrs' = Some v)
    ∧ (∀ key, dict_get key kvs = None →
              dict_get key attrs' = dict_get key attrs)
    ∧ (∀ xs, StateMixin_load_state_dict (VList xs) attrs
             = Raise (AttributeError "items")).
Proof.
  intros Hnd. exists (foldl setattr attrs kvs). split_and!; [done| | |done].
  - intros key v Hv. by rewrite foldl_setattr_lookup, Hv.
  - intros key Hv. by rewrite foldl_setattr_lookup, Hv.
Qed.

Lemma StateMixin_load_state_dict_merges_witness :
  ∃ attrs',
    @StateMixin_load_state_dict no_files
      (VDict [("epochs", VLeaf (LInt 3))])
      [("epochs", VLeaf (LInt 25)); ("step", VLeaf (LInt 7))] = Ok attrs'
    ∧ dict_get "epochs" attrs' = Some (VLeaf (LInt 3))
    ∧ dict_get "step" attrs' = Some (VLeaf (LInt 7)).
Proof.
  destruct (@StateMixin_load_state_dict_merges no_files
              [("epochs", VLeaf (LInt 3))]
              [("epochs", VLeaf (LInt 25)); ("step", VLeaf (LInt 7))])
    as (attrs' & H & Hin & Hout & _).
  - apply NoDup_cons. split; [apply not_elem_of_nil|apply NoDup_nil_2].
  - exists attrs'. split; [exact H|]. split.
    + apply Hin. reflexivity.
    + rewrite Hout; reflexivity.
Defined.

(** ** Version comparison (cassetta/core/utils.py) *)

Lemma mode_in_strict (mode : string) :
  mode_in mode ["gt"; "lt"; ">"; "<"]
  = mode_in mode ["gt"; ">"] || mode_in mode ["lt"; "<"].
Proof.
  unfold mode_in. cbn [existsb].
  by destruct (String.eqb mode "gt"), (String.eqb mode "lt"),
       (String.eqb mode ">"), (String.eqb mode "<").
Qed.

Lemma mode_in_exclusive (mode : string) (names others : list string) :
  mode_in mode names = true →
  forallb (λ n, negb (mode_in n others)) names = true →
  mode_in mode others = false.
Proof.
  unfold mode_in at 1. intros Hin Hall.
  apply existsb_exists in Hin as (n & Hn & ->%String.eqb_eq).
  rewrite forallb_forall in Hall. by apply negb_true_iff, Hall.
Qed.

(** X17.  [_compare_versions] decides the lexicographic order of the
    two versions over the positions both have: with ['gt'] or ['>'] it
    holds exactly when the first is greater there, with ['ge'] or
    ['>='] when it is not smaller, with ['lt'] or ['<'] when it is
    smaller, with ['le'] or ['<='] when it is not greater; with any
    other mode string the answer is [True] whatever the versions. *)
Theorem _compare_versions_spec (version1 version2 : list Z) (mode : string) :
  _compare_versions version1 mode version2
  = if mode_in mode ["gt"; ">"] then
      match zip_compare version1 version2 with Gt => true | _ => false end
    else if mode_in mode ["ge"; ">="] then
      match zip_compare version1 version2 with Lt => false | _ => true end
    else if mode_in mode ["lt"; "<"] then
      match zip_compare version1 version2 with Lt => true | _ => false end
    else if mode_in mode ["le"; "<="] then
      match zip_compare version1 version2 with Gt => false | _ => true end
    else true.
Proof.
  assert (Hbase : (if mode_in mode ["gt"; "lt"; ">"; "<"] then false else true)
          = if mode_in mode ["gt"; ">"] then false
            else if mode_in mode ["ge"; ">="] then true
            else if mode_in mode ["lt"; "<"] then false
            else true).
  { rewrite mode_in_strict.
    destruct (mode_in mode ["gt"; ">"]) eqn:E1; [done|].
    destruct (mode_in mode ["ge"; ">="]) eqn:E2; [|by destruct (mode_in _ _)].
    by rewrite (mode_in_exclusive mode ["ge"; ">="] ["lt"; "<"]). }
  revert version2.
  induction version1 as [|v1 rest1 IH]; intros [|v2 rest2];
    cbn [_compare_versions zip_compare]; rewrite ?Hbase;
    try (by destruct (mode_in mode ["gt"; ">"]),
              (mode_in mode ["ge"; ">="]), (mode_in mode ["lt"; "<"]),
              (mode_in mode ["le"; "<="])).
  rewrite IH, Z.gtb_ltb.
  destruct (Z.compare_spec v1 v2) as [->|Hlt|Hgt].
  - rewrite Z.ltb_irrefl. by repeat destruct (mode_in _ _).
  - assert (E1 : (v1 <? v2)%Z = true) by by apply Z.ltb_lt.
    assert (E2 : (v2 <? v1)%Z = false) by (apply Z.ltb_ge; lia).
    rewrite E1, E2. by repeat destruct (mode_in _ _).
  - assert (E1 : (v1 <? v2)%Z = false) by (apply Z.ltb_ge; lia).
    assert (E2 : (v2 <? v1)%Z = true) by by apply Z.ltb_lt.
    rewrite E1, E2. by repeat destruct (mode_in _ _).
Qed.

(** X18.  Positions that only one version has are not compared: a
    version and an extension of it count as equal, so the strict modes
    answer [False] and the others [True] in both directions (with
    [(2, 1, 0)] against [(2,)], ['>'] is [False] and ['<='] is [True]). *)
Theorem _compare_versions_prefix (v ext : list Z) (mode : string) :
  _compare_versions (v ++ ext) mode v
  = negb (mode_in mode ["gt"; "lt"; ">"; "<"])
  ∧ _compare_versions v mode (v ++ ext)
    = negb (mode_in mode ["gt"; "lt"; ">"; "<"]).
Proof.
  induction v as [|x r [IH1 IH2]].
  - split; [destruct ext|]; cbn [app _compare_versions];
      by destruct (mode_in mode ["gt"; "lt"; ">"; "<"]).
  - cbn [app _compare_versions].
    rewrite Z.gtb_ltb, Z.ltb_irrefl, IH1, IH2.
    by destruct (mode_in mode ["gt"; ">"]), (mode_in mode ["ge"; ">="]),
         (mode_in mode ["lt"; "<"]), (mode_in mode ["le"; "<="]).
Qed.

(** ** ensure_list (cassetta/core/utils.py) *)

(** Below, [ensure_list x None true None] stands for the elements of
    the input: those of a list or tuple, or the input alone. *)

(** X19.  With a positive [length] and [crop] left at [True], the list
    [ensure_list] returns has exactly [length] elements: the elements
    of the input come first, as many as fit, and the positions after
    them hold [default] when it is given, else the last element of the
    input ([None] for an empty input). *)
Theorem ensure_list_exact (x : value) (n : Z) (default : option value) :
  (0 < n)%Z →
  let xs := ensure_list x None true None in
  let fill := match default with
              | Some d => d
              | None => List.last xs (VLeaf LNone)
              end in
  let out := ensure_list x (Some n) true default in
  List.length out = Z.to_nat n
  ∧ (∀ i v, (i < Z.to_nat n)%nat → xs !! i = Some v → out !! i = Some v)
  ∧ (∀ i, (List.length xs ≤ i < Z.to_nat n)%nat → out !! i = Some fill).
Proof.
  intros Hn xs fill out. subst out fill. unfold ensure_list in *.
  fold xs. assert (E0 : (n =? 0)%Z = false) by (apply Z.eqb_neq; lia).
  rewrite E0. unfold slice_to.
  assert (E1 : (0 <=? n)%Z = true) by (apply Z.leb_le; lia). rewrite E1.
  cbn [Z.eqb] in xs.
  destruct (Z.ltb_spec (Z.of_nat (List.length xs)) n) as [Hlt|Hge].
  - rewrite take_ge
      by (rewrite length_app, length_replicate; lia).
    split_and!.
    + rewrite length_app, length_replicate. lia.
    + intros i v _ Hv. by apply lookup_app_l_Some.
    + intros i [Hi1 Hi2]. rewrite lookup_app_r by done.
      apply lookup_replicate_2. lia.
  - split_and!.
    + rewrite length_take. lia.
    + intros i v Hi Hv. by rewrite lookup_take_lt.
    + intros i [Hi1 Hi2]. lia.
Qed.

Lemma ensure_list_exact_witness :
  ensure_list (VTuple [VLeaf (LInt 3)]) (Some 3%Z) true None !! 2%nat
  = Some (VLeaf (LInt 3)).
Proof.
  destruct (ensure_list_exact (VTuple [VLeaf (LInt 3)]) 3 None)
    as (_ & _ & H); [lia|].
  apply (H 2%nat). simpl. lia.
Defined.

(** X20.  With [crop=False] nothing is removed: the result starts with
    the elements of the input and has [max(len(x), length)] elements. *)
Theorem ensure_list_no_crop (x : value) (length : option Z)
    (default : option value) :
  let xs := ensure_list x None true None in
  let out := ensure_list x length false default in
  (∃ pad, out = (xs ++ pad)%list)
  ∧ List.length out
    = Nat.max (List.length xs)
              (match length with Some n => Z.to_nat n | None => 0%nat end).
Proof.
  intros xs out. subst out. unfold ensure_list in *. fold xs.
  cbn [Z.eqb] in xs.
  destruct length as [n|];
    [|split; [exists []; by rewrite app_nil_r|lia]].
  destruct (Z.eqb_spec n 0) as [->|Hn];
    [split; [exists []; by rewrite app_nil_r|simpl; lia]|].
  destruct (Z.ltb_spec (Z.of_nat (List.length xs)) n) as [Hlt|Hge].
  - split; [by eexists|]. rewrite length_app, length_replicate. lia.
  - split; [exists []; by rewrite app_nil_r|lia].
Qed.

(** X21.  A [length] of [0] is read as no length at all: the elements
    of the input are returned as they are, [crop] or not, so the result
    is not empty unless the input is.  A negative [length] never pads,
    and with [crop] it removes that many elements from the end. *)
Theorem ensure_list_edge_lengths (x : value) (n : Z) (crop : bool)
    (default : option value) :
  let xs := ensure_list x None true None in
  ensure_list x (Some 0%Z) crop default = xs
  ∧ ((n < 0)%Z →
     ensure_list x (Some n) false default = xs
     ∧ ensure_list x (Some n) true default
       = take (List.length xs - Z.to_nat (- n)) xs).
Proof.
  intros xs. split; [by destruct crop|]. intros Hn.
  unfold ensure_list in *. fold xs. cbn [Z.eqb] in xs.
  assert (E0 : (n =? 0)%Z = false) by (apply Z.eqb_neq; lia).
  assert (E1 : (Z.of_nat (List.length xs) <? n)%Z = false)
    by (apply Z.ltb_ge; lia).
  rewrite E0, E1. split; [done|]. unfold slice_to.
  assert (E2 : (0 <=? n)%Z = false) by (apply Z.leb_gt; lia).
  rewrite E2. f_equal. lia.
Qed.

Lemma ensure_list_edge_lengths_witness :
  ensure_list (VList [VLeaf (LInt 1); VLeaf (LInt 2); VLeaf (LInt 3)])
              (Some (-1)%Z) true None
  = [VLeaf (LInt 1); VLeaf (LInt 2)].
Proof.
  destruct (ensure_list_edge_lengths
              (VList [VLeaf (LInt 1); VLeaf (LInt 2); VLeaf (LInt 3)])
              (-1) true None) as [_ H].
  destruct H as [_ H]; [lia|]. exact H.
Defined.
